(** * GPS spoofing detection: speed detector, SNR detector and mode switch

    Shallow embedding of the three Python modules of the "Autonomous Switch"
    directory:

    - [detector_speed.py]  (class [SpeedDetector])
    - [detector_snr.py]    (class [SNRDetector])
    - [Final_Map_Project.py] (function [gps_reader] and the global
      [autonomous_mode])

    Python floats are idealised as rationals ([Q]); Python dictionaries keyed
    by PRN strings are finite maps ([gmap string _]); a method that mutates
    [self] is a function from the object's fields to the new fields, and the
    values read from the wall clock are explicit arguments. *)

From Stdlib Require Import QArith Qabs Qminmax ZArith List Bool Lia.
From stdpp Require Import gmap strings list fin_maps.

Local Open Scope Q_scope.

(** ** Comparisons on Python numbers *)

Definition Qltb (a b : Q) : bool := negb (Qle_bool b a).
Definition Qgtb (a b : Q) : bool := Qltb b a.
Definition Qgeb (a b : Q) : bool := Qle_bool b a.

(** ** Exceptions raised inside the detectors *)

Inductive exn :=
  | ParseError          (* pynmea2.parse, int(), msg.latitude ... raise *)
  | TypeError           (* datetime/float arithmetic on mixed operands *)
  | ZeroDivisionError.

(** The exception monad, through stdpp's [mbind]/[mret] notations. *)
Definition raise {A : Type} (e : exn) : exn + A := inl e.

Global Instance exn_mret : MRet (sum exn) := fun A a => inr a.
Global Instance exn_bind : MBind (sum exn) := fun A B k m =>
  match m with
  | inl e => inl e
  | inr a => k a
  end.

(** ** detector_speed.py *)

Module SpeedDetector.

(* ------------------ Configuration ------------------ *)
Definition STABILIZATION_SPEED : Q := 8.
Definition SPOOFING_SPEED_THRESHOLD : Q := 6.
Definition STABILIZATION_COUNT : nat := 4.
Definition DISTANCE_JUMP_THRESHOLD : Q := 30.

(** (latitude, longitude) in degrees. *)
Definition position : Type := Q * Q.

(** The two kinds of value [current_time] can hold: a [datetime.datetime]
    built from the sentence's time of day, or the float of [time.time()].
    Both are counted in seconds. *)
Inductive instant :=
  | Datetime (seconds : Q)
  | Epoch (seconds : Q).

(** The fields of a [SpeedDetector] object. *)
Record detector := mk_detector {
  last_position : option position;
  last_time : option instant;
  stabilized : bool;
  stabilization_counter : nat;
  spoofing_phase : bool;
  spoofed_stabilization_counter : nat;
  spoof_confirmed : bool
}.

Definition __init__ : detector :=
  {| last_position := None;
     last_time := None;
     stabilized := false;
     stabilization_counter := 0;
     spoofing_phase := false;
     spoofed_stabilization_counter := 0;
     spoof_confirmed := false |}.

(** What [pynmea2.parse] gives for a GGA sentence, as far as [process] reads
    it.  [coords] is [None] when [msg.latitude] or [msg.longitude] raises,
    [timestamp] (seconds since midnight) is [None] when the time field is
    empty or malformed, so that [datetime.combine] rejects it. *)
Record gga := mk_gga {
  gps_qual : Z;
  coords : option position;
  timestamp : option Q
}.

Inductive nmea_line :=
  | Unparsed              (* parse or int(msg.gps_qual) raises *)
  | Parsed (msg : gga).

(** The clock values one call may read: the day of [datetime.utcnow()]
    and [time.time()]. *)
Record clock := mk_clock {
  utcnow_date : Z;
  time_time : Q
}.

Inductive status :=
  | NO_FIX | STABILIZING | SPEED_ANOMALY | SPOOFING_ANALYSIS
  | SPOOFING_CONFIRMED | NORMAL | ERROR.

Inductive value :=
  | NoValue
  | Speed (v : Q)
  | Message (e : exn).

Definition verdict : Type := status * value * bool.

Definition state (v : verdict) : status := v.1.1.
Definition detected (v : verdict) : bool := v.2.

Global Instance status_eq_dec : EqDecision status.
Proof. solve_decision. Defined.

(** Python truth value of [self.last_time]. *)
Definition truthy (t : option instant) : bool :=
  match t with
  | None => false
  | Some (Datetime _) => true
  | Some (Epoch s) => negb (Qeq_bool s 0)
  end.

(** [datetime.combine(date, time)], in seconds. *)
Definition combine (day : Z) (tod : Q) : Q := inject_Z (86400 * day) + tod.

(** Body of the inner [try]: the sentence's time of day. *)
Definition dt_try (c : clock) (ts : option Q) (last : option instant)
  : exn + (instant * Q) :=
  match ts with
  | None => raise TypeError
  | Some tod =>
      let current_time := combine (utcnow_date c) tod in
      if truthy last then
        match last with
        | Some (Datetime l) => mret (Datetime current_time, current_time - l)
        | _ => raise TypeError
        end
      else mret (Datetime current_time, 1)
  end.

(** Body of the inner [except]: the wall clock. *)
Definition dt_except (c : clock) (last : option instant)
  : exn + (instant * Q) :=
  let current_time := time_time c in
  if truthy last then
    match last with
    | Some (Epoch l) => mret (Epoch current_time, current_time - l)
    | _ => raise TypeError
    end
  else mret (Epoch current_time, 1).

(** Lines 47-53: [(current_time, dt)]. *)
Definition elapsed (c : clock) (ts : option Q) (last : option instant)
  : exn + (instant * Q) :=
  match dt_try c ts last with
  | inr r => inr r
  | inl _ => dt_except c last
  end.

(** Python's [/] on floats. *)
Definition py_div (a b : Q) : exn + Q :=
  if Qeq_bool b 0 then raise ZeroDivisionError else mret (a / b).

(** Line 60: [speed = dist / dt if dt > 0 else 0]. *)
Definition speed_of (dist dt : Q) : exn + Q :=
  if Qgtb dt 0 then py_div dist dt else mret 0.

Definition set_stabilization (self : detector) (flag : bool) (n : nat) : detector :=
  {| last_position := last_position self;
     last_time := last_time self;
     stabilized := flag;
     stabilization_counter := n;
     spoofing_phase := spoofing_phase self;
     spoofed_stabilization_counter := spoofed_stabilization_counter self;
     spoof_confirmed := spoof_confirmed self |}.

Definition set_spoofing_phase (self : detector) (flag : bool) : detector :=
  {| last_position := last_position self;
     last_time := last_time self;
     stabilized := stabilized self;
     stabilization_counter := stabilization_counter self;
     spoofing_phase := flag;
     spoofed_stabilization_counter := spoofed_stabilization_counter self;
     spoof_confirmed := spoof_confirmed self |}.

Definition set_spoofed (self : detector) (n : nat) (confirmed : bool) : detector :=
  {| last_position := last_position self;
     last_time := last_time self;
     stabilized := stabilized self;
     stabilization_counter := stabilization_counter self;
     spoofing_phase := spoofing_phase self;
     spoofed_stabilization_counter := n;
     spoof_confirmed := confirmed |}.

Definition set_reference (self : detector) (p : position) (t : instant) : detector :=
  {| last_position := Some p;
     last_time := Some t;
     stabilized := stabilized self;
     stabilization_counter := stabilization_counter self;
     spoofing_phase := spoofing_phase self;
     spoofed_stabilization_counter := spoofed_stabilization_counter self;
     spoof_confirmed := spoof_confirmed self |}.

Section Process.

(** [geopy.distance.geodesic(a, b).meters]. *)
Variable geodesic : position -> position -> Q.

(** Lines 62-92: the three phases, entered when a reference position is
    stored.  [None] means that no branch returned and control falls through
    to the update of the reference. *)
Definition phases (self : detector) (speed dist : Q)
  : option (verdict * detector) :=
  if negb (stabilized self) then
    let self1 :=
      if Qltb speed STABILIZATION_SPEED then
        let n := S (stabilization_counter self) in
        if (STABILIZATION_COUNT <=? n)%nat
        then set_stabilization self true n
        else set_stabilization self (stabilized self) n
      else self in
    Some ((STABILIZING, Speed speed, false), self1)
  else if negb (spoofing_phase self)
          && Qgtb speed SPOOFING_SPEED_THRESHOLD
          && Qgtb dist DISTANCE_JUMP_THRESHOLD then
    Some ((SPEED_ANOMALY, Speed speed, false), set_spoofing_phase self true)
  else if spoofing_phase self && negb (spoof_confirmed self) then
    if Qltb speed STABILIZATION_SPEED then
      let n := S (spoofed_stabilization_counter self) in
      if (STABILIZATION_COUNT <=? n)%nat
      then Some ((SPOOFING_CONFIRMED, Speed speed, true), set_spoofed self n true)
      else Some ((SPOOFING_ANALYSIS, Speed speed, false),
                 set_spoofed self n (spoof_confirmed self))
    else Some ((SPOOFING_ANALYSIS, Speed speed, false), self)
  else None.

(** Lines 38-99: the body of the outer [try].  No field of [self] is written
    before the last statement that can raise, so an exception leaves the
    object as it was. *)
Definition process_body (self : detector) (c : clock) (line : nmea_line)
  : exn + (verdict * detector) :=
  msg ← match line with Unparsed => raise ParseError | Parsed m => mret m end;
  if (gps_qual msg =? 0)%Z then mret ((NO_FIX, NoValue, false), self) else
  current_position ←
    match coords msg with None => raise ParseError | Some p => mret p end;
  '(current_time, dt) ← elapsed c (timestamp msg) (last_time self);
  through ←
    match last_position self with
    | Some last =>
        let dist := geodesic last current_position in
        speed ← speed_of dist dt;
        mret (phases self speed dist)
    | None => mret None
    end;
  match through with
  | Some r => mret r
  | None =>
      mret ((NORMAL, NoValue, false),
           set_reference self current_position current_time)
  end.

Definition process (self : detector) (c : clock) (line : nmea_line)
  : verdict * detector :=
  match process_body self c line with
  | inr r => r
  | inl e => ((ERROR, Message e, false), self)
  end.

(** Successive calls on one detector. *)
Fixpoint run (self : detector) (inputs : list (clock * nmea_line))
  : list verdict * detector :=
  match inputs with
  | [] => ([], self)
  | (c, line) :: rest =>
      let '(v, self1) := process self c line in
      let '(vs, self2) := run self1 rest in
      (v :: vs, self2)
  end.

Inductive reachable : detector -> Prop :=
  | reachable_init : reachable __init__
  | reachable_process self c line :
      reachable self -> reachable (process self c line).2.

End Process.

End SpeedDetector.

(** ** detector_snr.py *)

Module SNRDetector.

(* ---------------- Configuration ---------------- *)
Definition SNR_JUMP_THRESHOLD : Q := 6.
Definition NEW_PRNS_THRESHOLD : nat := 4.
Definition DISAPPEARED_PRNS_THRESHOLD : nat := 4.
Definition ANOMALY_CONFIRMATION_COUNT : nat := 2.
Definition HISTORY_LENGTH : nat := 3.
Definition INSTANT_SHOCK_THRESHOLD : nat := 5.
Definition SNR_MIN_THRESHOLD : Q := 23.
Definition MIN_SAT_FOR_ANALYSIS : nat := 4.
Definition STABILIZATION_DURATION : Q := 60.

(** The text of an [snr_i] field, as [float] sees it. *)
Inductive snr_field :=
  | SnrMissing            (* None or the empty string *)
  | SnrNumber (v : Q)     (* float(snr) = v *)
  | SnrGarbage.           (* float(snr) raises ValueError *)

(** One of the four satellite slots of a GSV sentence; a missing or empty
    [sv_prn_num_i] is the empty string. *)
Record sv := mk_sv {
  sv_prn_num : string;
  snr : snr_field
}.

Inductive nmea_line :=
  | NotGSV                    (* the test of line 81 fails *)
  | Unparsed                  (* pynmea2.parse raises *)
  | Parsed (svs : list sv).   (* slots 1, 2, 3, ... of the sentence *)

(** The fields of an [SNRDetector] object; a [deque(maxlen=HISTORY_LENGTH)]
    is a list, oldest sample first. *)
Record detector := mk_detector {
  snr_history : gmap string (list Q);
  previous_avg_sats : gmap string Q;
  anomaly_counter : nat;
  stabilization_start_time : Q;
  all_sats : gmap string Q;
  filtered_sats : gmap string Q
}.

(** [now] is the value of [time.time()] when the object is built. *)
Definition __init__ (now : Q) : detector :=
  {| snr_history := ∅;
     previous_avg_sats := ∅;
     anomaly_counter := 0;
     stabilization_start_time := now;
     all_sats := ∅;
     filtered_sats := ∅ |}.

Inductive status :=
  | STABILIZING | INSUFFICIENT_SATS | SPOOFING_DETECTED | NORMAL.

Inductive cause :=
  | NewSatellites (prns : gset string)
  | LostSatellites (prns : gset string)
  | SnrJumps (jumps : list (string * Q))
  | InstantShock.

Definition verdict : Type := status * list cause * bool.

Definition state (v : verdict) : status := v.1.1.
Definition causes_of (v : verdict) : list cause := v.1.2.
Definition detected (v : verdict) : bool := v.2.

(** [deque.append] on a deque of maximal length [HISTORY_LENGTH]. *)
Definition append (window : list Q) (x : Q) : list Q :=
  let w := window ++ [x] in
  drop (length w - HISTORY_LENGTH) w.

Definition update_snr_history (history : gmap string (list Q))
    (data : gmap string Q) : gmap string (list Q) :=
  map_fold (fun prn snr h => <[prn := append (default [] (h !! prn)) snr]> h)
           history data.

Definition get_averaged_snr (history : gmap string (list Q)) : gmap string Q :=
  (fun v => fold_right Qplus 0 v / inject_Z (Z.of_nat (length v)))
    <$> filter (fun kv => kv.2 <> []) history.

(** Line 62-63: the size of the jump when it counts as one. *)
Definition snr_jump (curr prev : Q) : option Q :=
  let delta := Qabs (curr - prev) in
  if Qgeb delta (Qmax SNR_JUMP_THRESHOLD ((1 # 4) * prev))
  then Some delta else None.

Definition compare_sat_data (prev curr : gmap string Q) : list cause * bool :=
  let new : gset string := dom curr ∖ dom prev in
  let lost : gset string := dom prev ∖ dom curr in
  let snr_jumps := map_to_list (intersection_with snr_jump curr prev) in
  let spoof_now :=
    (INSTANT_SHOCK_THRESHOLD <=? size new)%nat
    && (INSTANT_SHOCK_THRESHOLD <=? size lost)%nat in
  ( (if (NEW_PRNS_THRESHOLD <=? size new)%nat then [NewSatellites new] else [])
    ++ (if (DISAPPEARED_PRNS_THRESHOLD <=? size lost)%nat
        then [LostSatellites lost] else [])
    ++ (match snr_jumps with [] => [] | _ :: _ => [SnrJumps snr_jumps] end)
    ++ (if spoof_now then [InstantShock] else []),
    spoof_now ).

(** Lines 84-92: the loop over the slots.  A [float] that raises leaves the
    loop (the [except: pass] of line 93) with the entries written so far. *)
Fixpoint read_slots (svs : list sv) (all filtered : gmap string Q)
  : gmap string Q * gmap string Q :=
  match svs with
  | [] => (all, filtered)
  | s :: rest =>
      if String.eqb (sv_prn_num s) "" then read_slots rest all filtered else
      match snr s with
      | SnrMissing => read_slots rest all filtered
      | SnrGarbage => (all, filtered)
      | SnrNumber snr_val =>
          read_slots rest
            (<[sv_prn_num s := snr_val]> all)
            (if Qgeb snr_val SNR_MIN_THRESHOLD
             then <[sv_prn_num s := snr_val]> filtered else filtered)
      end
  end.

(** Lines 79-94: [range(1, 5)] reads the first four slots. *)
Definition read_line (line : nmea_line) (all filtered : gmap string Q)
  : gmap string Q * gmap string Q :=
  match line with
  | Parsed svs => read_slots (take 4 svs) all filtered
  | NotGSV | Unparsed => (all, filtered)
  end.

Definition set_sats (self : detector) (all filtered : gmap string Q) : detector :=
  {| snr_history := snr_history self;
     previous_avg_sats := previous_avg_sats self;
     anomaly_counter := anomaly_counter self;
     stabilization_start_time := stabilization_start_time self;
     all_sats := all;
     filtered_sats := filtered |}.

Definition set_snr_history (self : detector) (h : gmap string (list Q)) : detector :=
  {| snr_history := h;
     previous_avg_sats := previous_avg_sats self;
     anomaly_counter := anomaly_counter self;
     stabilization_start_time := stabilization_start_time self;
     all_sats := all_sats self;
     filtered_sats := filtered_sats self |}.

Definition set_anomaly_counter (self : detector) (n : nat) : detector :=
  {| snr_history := snr_history self;
     previous_avg_sats := previous_avg_sats self;
     anomaly_counter := n;
     stabilization_start_time := stabilization_start_time self;
     all_sats := all_sats self;
     filtered_sats := filtered_sats self |}.

(** [self.previous_avg_sats = self.filtered_sats.copy()]: a snapshot, not an
    alias, so later writes to [filtered_sats] do not show in it. *)
Definition remember (self : detector) : detector :=
  {| snr_history := snr_history self;
     previous_avg_sats := filtered_sats self;
     anomaly_counter := anomaly_counter self;
     stabilization_start_time := stabilization_start_time self;
     all_sats := all_sats self;
     filtered_sats := filtered_sats self |}.

(** [now] is the value [time.time()] returns at line 97. *)
Definition process_gsv_for_snr (self : detector) (now : Q) (line : nmea_line)
  : verdict * detector :=
  let '(all, filtered) := read_line line (all_sats self) (filtered_sats self) in
  let self := set_sats self all filtered in
  let elapsed := now - stabilization_start_time self in
  if Qltb elapsed STABILIZATION_DURATION then
    ((STABILIZING, [], false), self)
  else if (size (filtered_sats self) <? MIN_SAT_FOR_ANALYSIS)%nat then
    ((INSUFFICIENT_SATS, [], false), self)
  else
    let self := set_snr_history self
                  (update_snr_history (snr_history self) (all_sats self)) in
    if bool_decide (previous_avg_sats self <> ∅) then
      let '(causes, spoof_now) :=
        compare_sat_data (previous_avg_sats self) (filtered_sats self) in
      let self :=
        set_anomaly_counter self
          (match causes with [] => 0%nat | _ :: _ => S (anomaly_counter self) end) in
      if (ANOMALY_CONFIRMATION_COUNT <=? anomaly_counter self)%nat || spoof_now
      then ((SPOOFING_DETECTED, causes, true), remember self)
      else ((NORMAL, [], false), remember self)
    else ((NORMAL, [], false), remember self).

Fixpoint run (self : detector) (inputs : list (Q * nmea_line))
  : list verdict * detector :=
  match inputs with
  | [] => ([], self)
  | (now, line) :: rest =>
      let '(v, self1) := process_gsv_for_snr self now line in
      let '(vs, self2) := run self1 rest in
      (v :: vs, self2)
  end.

Inductive reachable : detector -> Prop :=
  | reachable_init now : reachable (__init__ now)
  | reachable_process self now line :
      reachable self -> reachable (process_gsv_for_snr self now line).2.

End SNRDetector.

(** ** Final_Map_Project.py *)

Module Final_Map_Project.

Definition STABILIZATION_DURATION : Q := 30.

(** A line read from the serial port, sorted by the prefix tests of lines
    247 and 308. *)
Inductive serial_line :=
  | GGA (line : SpeedDetector.nmea_line)   (* $GPGGA or $GNGGA *)
  | GSV (line : SNRDetector.nmea_line)     (* $GPGSV or $GNGSV *)
  | Other.

(** The clock values read while one line is handled: inside the detector,
    then by [gps_reader] once the verdict is back. *)
Record tick := mk_tick {
  detector_clock : SpeedDetector.clock;
  switch_time : Q
}.

Inductive event :=
  | ReadError                              (* serial.Serial or readline raises *)
  | Read (line : serial_line) (k : tick).

(** The module-level variables. *)
Record globals := mk_globals {
  start_time : Q;
  snr_detector : SNRDetector.detector;
  speed_detector : SpeedDetector.detector;
  autonomous_mode : bool
}.

(** The two values of the mode flag. *)
Definition Tracking : bool := false.
Definition Fallback : bool := true.

(** The module's top-level statements, run at [now] (lines 31-40). *)
Definition initial (now : Q) : globals :=
  {| start_time := now;
     snr_detector := SNRDetector.__init__ now;
     speed_detector := SpeedDetector.__init__;
     autonomous_mode := false |}.

Definition set_speed_detector (g : globals) (d : SpeedDetector.detector) : globals :=
  {| start_time := start_time g;
     snr_detector := snr_detector g;
     speed_detector := d;
     autonomous_mode := autonomous_mode g |}.

Definition set_snr_detector (g : globals) (d : SNRDetector.detector) : globals :=
  {| start_time := start_time g;
     snr_detector := d;
     speed_detector := speed_detector g;
     autonomous_mode := autonomous_mode g |}.

Definition set_autonomous_mode (g : globals) (b : bool) : globals :=
  {| start_time := start_time g;
     snr_detector := snr_detector g;
     speed_detector := speed_detector g;
     autonomous_mode := b |}.

(** How one iteration of the [while True] loop ends. *)
Inductive outcome :=
  | Continue
  | Alert          (* emit('alert'), then return last_display_coord *)
  | Failure.       (* the outer except, then return last_display_coord *)

Section Reader.

Variable geodesic : SpeedDetector.position -> SpeedDetector.position -> Q.

(** The locals of [gps_reader] used for drawing ([buffer],
    [last_display_coord], [road_network], [network_loaded]) and the
    map-matching block of lines 259-305, which reads and writes only them. *)
Variable display : Type.
Variable map_matching : display -> SpeedDetector.nmea_line -> display.

(** What a detector hands back to the loop. *)
Inductive report :=
  | SpeedReport (v : SpeedDetector.verdict)
  | SnrReport (v : SNRDetector.verdict)
  | NoReport.

(** The third component of the returned triple (the variable [spoof]). *)
Definition spoof (r : report) : bool :=
  match r with
  | SpeedReport v => SpeedDetector.detected v
  | SnrReport v => SNRDetector.detected v
  | NoReport => false
  end.

(** The report carries a detector's "confirmed" status. *)
Definition confirmed (r : report) : bool :=
  match r with
  | SpeedReport v =>
      match SpeedDetector.state v with
      | SpeedDetector.SPOOFING_CONFIRMED => true
      | _ => false
      end
  | SnrReport v =>
      match SNRDetector.state v with
      | SNRDetector.SPOOFING_DETECTED => true
      | _ => false
      end
  | NoReport => false
  end.

(** Lines 248 and 309: the detector concerned is called on the line. *)
Definition consult (g : globals) (line : serial_line) (k : tick)
  : report * globals :=
  match line with
  | GGA l =>
      let '(v, d) :=
        SpeedDetector.process geodesic (speed_detector g) (detector_clock k) l in
      (SpeedReport v, set_speed_detector g d)
  | GSV l =>
      let '(v, d) :=
        SNRDetector.process_gsv_for_snr (snr_detector g)
          (SpeedDetector.time_time (detector_clock k)) l in
      (SnrReport v, set_snr_detector g d)
  | Other => (NoReport, g)
  end.

(** Lines 258-305 and the end of the GSV branch: what the iteration does when
    it does not return. *)
Definition carry_on (shown : display) (line : serial_line) : display :=
  match line with
  | GGA l => map_matching shown l
  | GSV _ | Other => shown
  end.

(** One iteration of the loop of line 243. *)
Definition iteration (g : globals) (shown : display) (e : event)
  : globals * display * outcome :=
  match e with
  | ReadError => (g, shown, Failure)
  | Read line k =>
      let '(r, g) := consult g line k in
      if spoof r && negb (autonomous_mode g) then
        if Qgtb (switch_time k - start_time g) STABILIZATION_DURATION
        then (set_autonomous_mode g true, shown, Alert)
        else (g, carry_on shown line, Continue)
      else (g, carry_on shown line, Continue)
  end.

(** [gps_reader] on the lines the port delivers: the loop runs until an
    iteration returns; when the events run out it is still reading. *)
Fixpoint gps_reader (g : globals) (shown : display) (events : list event)
  : globals * display * outcome :=
  match events with
  | [] => (g, shown, Continue)
  | e :: rest =>
      match iteration g shown e with
      | (g1, shown1, Continue) => gps_reader g1 shown1 rest
      | stopped => stopped
      end
  end.

(** The value of [autonomous_mode] after each iteration [gps_reader]
    performs. *)
Fixpoint modes (g : globals) (shown : display) (events : list event)
  : list bool :=
  match events with
  | [] => []
  | e :: rest =>
      match iteration g shown e with
      | (g1, shown1, Continue) => autonomous_mode g1 :: modes g1 shown1 rest
      | (g1, _, _) => [autonomous_mode g1]
      end
  end.

End Reader.

(** The number of places in a list of flags where the flag changes. *)
Fixpoint switches (before : bool) (flags : list bool) : nat :=
  match flags with
  | [] => 0
  | b :: rest => (if Bool.eqb before b then 0 else 1) + switches b rest
  end.

End Final_Map_Project.

(** ** Final_Map_Project.py: drawing the track (lines 234-237, 258-305) *)

Module MapMatching.

Import SpeedDetector.

Definition SMOOTHING_WINDOW : nat := 5.
Definition MAX_DISPLAY_JUMP_METERS : Q := 80.

(** [deque.append] on [buffer], a deque of maximal length
    [SMOOTHING_WINDOW]. *)
Definition push (buffer : list position) (p : position) : list position :=
  let b := buffer ++ [p] in
  drop (length b - SMOOTHING_WINDOW) b.

(** [sum(...) / len(buffer)]. *)
Definition mean (xs : list Q) : Q :=
  fold_right Qplus 0 xs / inject_Z (Z.of_nat (length xs)).

(** Lines 289-291. *)
Definition smoothed (buffer : list position) : position :=
  (mean (map fst buffer), mean (map snd buffer)).

Section Block.

(** The road graph and the three functions the block calls:
    [ox.graph_from_point] ([None] when it raises), the projection of a point
    on its nearest edge (lines 272-284, [None] when a step raises) and
    [haversine]. *)
Variable network : Type.
Variable graph_from_point : position -> option network.
Variable snap : network -> position -> option position.
Variable haversine : position -> position -> Q.

(** The locals of [gps_reader] the block uses; [network_loaded] is true
    exactly when [road_network] is set. *)
Record locals := mk_locals {
  buffer : list position;
  last_display_coord : option position;
  road_network : option network
}.

(** Lines 234-237. *)
Definition start : locals :=
  {| buffer := []; last_display_coord := None; road_network := None |}.

(** Lines 259-305: the locals after the block and the point sent to the
    front end (the green trace), if one is. *)
Definition block (l : locals) (line : nmea_line) : locals * option position :=
  match line with
  | Unparsed => (l, None)
  | Parsed msg =>
      if (0 <? gps_qual msg)%Z then
        match coords msg with
        | None => (l, None)
        | Some (lat, lon) =>
            if Qeq_bool lat 0 || Qeq_bool lon 0 then (l, None) else
            match
              match road_network l with
              | Some net => Some net
              | None => graph_from_point (lat, lon)
              end
            with
            | None => (l, None)
            | Some net =>
                let l :=
                  {| buffer := buffer l;
                     last_display_coord := last_display_coord l;
                     road_network := Some net |} in
                match snap net (lat, lon) with
                | None => (l, None)
                | Some snapped_coord =>
                    let l :=
                      {| buffer := push (buffer l) snapped_coord;
                         last_display_coord := last_display_coord l;
                         road_network := road_network l |} in
                    if (2 <=? length (buffer l))%nat then
                      let p := smoothed (buffer l) in
                      if match last_display_coord l with
                         | Some shown =>
                             Qgtb (haversine shown p) MAX_DISPLAY_JUMP_METERS
                         | None => false
                         end
                      then (l, None)
                      else ({| buffer := buffer l;
                               last_display_coord := Some p;
                               road_network := road_network l |}, Some p)
                    else (l, None)
                end
            end
        end
      else (l, None)
  end.

(** The block as [gps_reader] sees it. *)
Definition map_matching (l : locals) (line : nmea_line) : locals :=
  (block l line).1.

End Block.

End MapMatching.

(** ** Final_Map_Project.py: the autonomous route (lines 203-222, 327-330) *)

Module AutonomousPath.

Section Unique.

Context {A : Type} `{EqDecision A}.

(** Lines 204-205: [[c for c in coords if not (c in seen or seen.add(c))]],
    [seen] being the elements met so far. *)
Fixpoint unique_from (seen coords : list A) : list A :=
  match coords with
  | [] => []
  | c :: rest =>
      if decide (c ∈ seen) then unique_from seen rest
      else c :: unique_from (c :: seen) rest
  end.

Definition unique (coords : list A) : list A := unique_from [] coords.

End Unique.

Inductive colour := green | blue.

Section Thread.

(** The type of the points of a route, with Python's [==] on them. *)
Context {point : Type} `{EqDecision point}.

Inductive emission :=
  | EmitAutonomous
  | EmitPosition (p : point) (c : colour).

(** [generate_autonomous_path]: [coords] is what lines 172-201 build from
    the CSV file and the road graph, [None] when one of them raises. *)
Definition generate_autonomous_path (coords : option (list point))
  : list point :=
  match coords with
  | Some cs => unique cs
  | None => []
  end.

(** Lines 172-201 as a function of the start point. *)
Variable route_from : point -> option (list point).

(** Lines 211-222: what [simulate_autonomous_movement] emits. *)
Definition simulate_autonomous_movement (last_coord : point)
  : list emission :=
  EmitAutonomous
  :: map (fun p => EmitPosition p blue)
         (generate_autonomous_path (route_from last_coord)).

(** Lines 327-330: [gps_thread], given what [gps_reader] returned and the
    flag it left. *)
Definition gps_thread (autonomous_mode : bool) (last_coord : option point)
  : list emission :=
  match last_coord with
  | Some p => if autonomous_mode then simulate_autonomous_movement p else []
  | None => []
  end.

End Thread.

End AutonomousPath.

(** ** Vocabulary for the loop *)

Module SwitchVocabulary.

Import Final_Map_Project.

(** The event is not a line for the SNR detector. *)
Definition not_gsv (e : event) : bool :=
  match e with
  | Read (GSV _) _ => false
  | Read (GGA _) _ | Read Other _ | ReadError => true
  end.

End SwitchVocabulary.

(** ** Vocabulary of the statements *)

Module SpeedVocabulary.

Import SpeedDetector.

(** The line parses and carries fix quality 0. *)
Definition is_no_fix (line : nmea_line) : bool :=
  match line with
  | Parsed msg => (gps_qual msg =? 0)%Z
  | Unparsed => false
  end.


(** The statuses a call can return without entering one of the phases. *)
Definition outside_phases (v : verdict) : bool :=
  match state v with
  | NO_FIX | NORMAL | ERROR => true
  | STABILIZING | SPEED_ANOMALY | SPOOFING_ANALYSIS | SPOOFING_CONFIRMED => false
  end.

(** The statuses returned from inside one of the three phases. *)
Definition early_return (v : verdict) : bool :=
  match state v with
  | STABILIZING | SPEED_ANOMALY | SPOOFING_ANALYSIS | SPOOFING_CONFIRMED => true
  | NO_FIX | NORMAL | ERROR => false
  end.

(** The flags are set in the order the phases are entered. *)
Definition consistent (self : detector) : Prop :=
  spoof_confirmed self = true ->
  stabilized self = true /\ spoofing_phase self = true.

End SpeedVocabulary.

Module SNRVocabulary.

Import SNRDetector.

(** The slots of a line that the loop of line 84 can reach. *)
Definition slots (line : nmea_line) : list sv :=
  match line with
  | Parsed svs => take 4 svs
  | NotGSV | Unparsed => []
  end.

(** The line carries, for [prn], an SNR at or above the reliability floor. *)
Definition reports_reliable (line : nmea_line) (prn : string) : Prop :=
  exists s v,
    s ∈ slots line /\ sv_prn_num s = prn /\ snr s = SnrNumber v
    /\ Qgeb v SNR_MIN_THRESHOLD = true.

(** The comparison baseline holds no PRN that the filtered map lacks. *)
Definition baseline_within (self : detector) : Prop :=
  dom (previous_avg_sats self) ⊆ dom (filtered_sats self).

Definition is_lost_cause (c : cause) : bool :=
  match c with
  | LostSatellites _ => true
  | NewSatellites _ | SnrJumps _ | InstantShock => false
  end.

Definition is_shock_cause (c : cause) : bool :=
  match c with
  | InstantShock => true
  | NewSatellites _ | LostSatellites _ | SnrJumps _ => false
  end.

End SNRVocabulary.

(** ** Further vocabulary for the speed detector *)

Module SpeedMeasures.

Import SpeedDetector.

(** Number of verdicts of a given status in a trace. *)
Definition count_status (st : status) (vs : list verdict) : nat :=
  length (filter (fun v => state v = st) vs).

(** How far a detector has come on the way to a confirmation: a reference
    stored, the slow fixes counted for the stabilisation, the suspect phase
    entered, the slow fixes counted after it. *)
Definition progress (self : detector) : nat :=
  (match last_position self with Some _ => 1 | None => 0 end)
  + stabilization_counter self
  + (if spoofing_phase self then 1 else 0)
  + spoofed_stabilization_counter self.

(** The relations between the fields that every call keeps. *)
Definition coherent (self : detector) : Prop :=
  (stabilization_counter self <= STABILIZATION_COUNT)%nat
  /\ (stabilized self = true
      <-> (STABILIZATION_COUNT <= stabilization_counter self)%nat)
  /\ (spoofed_stabilization_counter self <= STABILIZATION_COUNT)%nat
  /\ (spoof_confirmed self = true
      <-> (STABILIZATION_COUNT <= spoofed_stabilization_counter self)%nat)
  /\ (spoofing_phase self = true -> stabilized self = true)
  /\ ((0 < spoofed_stabilization_counter self)%nat ->
      spoofing_phase self = true)
  /\ ((0 < stabilization_counter self)%nat -> last_position self <> None)
  /\ (last_position self = None <-> last_time self = None).

End SpeedMeasures.

(** ** Further vocabulary for the SNR detector *)

Module SNRMeasures.

Import SNRDetector.

(** The slot is named and its SNR text is rejected by [float]: the loop of
    line 84 stops there. *)
Definition stops_reading (s : sv) : bool :=
  negb (String.eqb (sv_prn_num s) "")
  && match snr s with SnrGarbage => true | SnrMissing | SnrNumber _ => false end.

(** The slot is skipped by the test of line 88, or names another PRN. *)
Definition silent_on (prn : string) (s : sv) : bool :=
  String.eqb (sv_prn_num s) ""
  || negb (String.eqb (sv_prn_num s) prn)
  || match snr s with SnrMissing => true | SnrNumber _ | SnrGarbage => false end.

(** What every call keeps true of the detector's maps. *)
Definition sound (self : detector) : Prop :=
  (forall prn v, filtered_sats self !! prn = Some v ->
                 (SNR_MIN_THRESHOLD <= v)%Q)
  /\ dom (filtered_sats self) ⊆ dom (all_sats self)
  /\ (forall prn v, previous_avg_sats self !! prn = Some v ->
                    (SNR_MIN_THRESHOLD <= v)%Q)
  /\ (previous_avg_sats self = ∅
      \/ (MIN_SAT_FOR_ANALYSIS <= size (previous_avg_sats self))%nat)
  /\ (forall prn w, snr_history self !! prn = Some w ->
                    w <> [] /\ (length w <= HISTORY_LENGTH)%nat)
  /\ dom (snr_history self) ⊆ dom (all_sats self).

(** The call went past the two gates and compared or took a baseline. *)
Definition analysed (v : verdict) : bool :=
  match state v with
  | NORMAL | SPOOFING_DETECTED => true
  | STABILIZING | INSUFFICIENT_SATS => false
  end.

End SNRMeasures.

(** ** Concrete inputs used to exercise the statements below *)

Module SpeedScenario.

Import SpeedDetector.

(** A crude stand-in for the geodesic distance: 111 km per degree along
    each axis. *)
Definition flat_metres (a b : position) : Q :=
  111000 * (Qabs (a.1 - b.1) + Qabs (a.2 - b.2)).

Definition today (now : Q) : clock := mk_clock 0 now.

Definition fix_at (lat lon tod : Q) : nmea_line :=
  Parsed (mk_gga 1 (Some (lat, lon)) (Some tod)).

Definition no_fix_at (tod : Q) : nmea_line :=
  Parsed (mk_gga 0 None (Some tod)).

(** A first fix, four fixes standing still, a jump of 111 m in one second,
    then the receiver held at the new place. *)
Definition jump_and_hold : list (clock * nmea_line) :=
  [ (today 0, fix_at 0 0 0);
    (today 1, fix_at 0 0 1);
    (today 2, fix_at 0 0 2);
    (today 3, fix_at 0 0 3);
    (today 4, fix_at 0 0 4);
    (today 5, fix_at (1 # 1000) 0 5);
    (today 20, fix_at (1 # 1000) 0 20);
    (today 21, fix_at (1 # 1000) 0 21);
    (today 22, fix_at (1 # 1000) 0 22) ].

Definition held (tod : Q) : nmea_line := fix_at (1 # 1000) 0 tod.

(** The detector after the run above and one more fix at the new place,
    which confirms the spoofing. *)
Definition confirmed_detector : detector :=
  (run flat_metres __init__ (jump_and_hold ++ [(today 23, held 23)])).2.

End SpeedScenario.

Module SNRScenario.

Import SNRDetector.

Definition strong (prn : string) : sv := mk_sv prn (SnrNumber 30).
Definition weak (prn : string) : sv := mk_sv prn (SnrNumber 10).

Definition first_four : nmea_line :=
  Parsed [strong "01"; strong "02"; strong "03"; strong "04"].
Definition fifth : nmea_line := Parsed [strong "05"].
Definition other_four : nmea_line :=
  Parsed [strong "11"; strong "12"; strong "13"; strong "14"].
Definition other_fifth : nmea_line := Parsed [strong "15"].
Definition first_weak : nmea_line := Parsed [weak "01"].

(** A detector built at time 0 that saw five strong satellites during the
    warm-up and took them as its baseline at its first call after it. *)
Definition primed : detector :=
  (run (__init__ 0) [(10, first_four); (11, fifth); (60, NotGSV)]).2.

End SNRScenario.

Module SwitchScenario.

Import Final_Map_Project.

(** The globals twenty-odd seconds after a start at time 0, the speed
    detector being one slow fix away from confirming. *)
Definition about_to_confirm : globals :=
  {| start_time := 0;
     snr_detector := SNRDetector.__init__ 0;
     speed_detector :=
       (SpeedDetector.run SpeedScenario.flat_metres SpeedDetector.__init__
          SpeedScenario.jump_and_hold).2;
     autonomous_mode := false |}.

(** The confirming fix, the loop reading the clock at [switch]. *)
Definition confirming_fix (switch : Q) : event :=
  Read (GGA (SpeedScenario.held 23)) (mk_tick (SpeedScenario.today 23) switch).

(** Nothing is drawn. *)
Definition no_display (shown : unit) (line : SpeedDetector.nmea_line) : unit :=
  tt.

End SwitchScenario.

Module DisplayScenario.

Import SpeedDetector.

(** A road graph with no content, loaded without failure, on which every
    point is its own projection. *)
Definition load_plain (p : position) : option unit := Some tt.
Definition snap_plain (net : unit) (p : position) : option position := Some p.

(** Locals with the road graph loaded and one point displayed. *)
Definition drawing : MapMatching.locals unit :=
  {| MapMatching.buffer := [(48, 2)];
     MapMatching.last_display_coord := Some (48, 2);
     MapMatching.road_network := Some tt |}.

(** A route that comes back to its first point. *)
Definition loop_route (p : nat) : option (list nat) :=
  Some [p; S p; p; S (S p)].

End DisplayScenario.

(** * Properties *)

(** ** Comparisons *)

Lemma Qltb_lt (a b : Q) : Qltb a b = true <-> a < b.
Proof.
  unfold Qltb. rewrite negb_true_iff. split.
  - intros H. apply Qnot_le_lt. intros Hle.
    apply Qle_bool_iff in Hle. congruence.
  - intros H. destruct (Qle_bool b a) eqn:E; [|reflexivity].
    apply Qle_bool_iff in E. exfalso. exact (Qlt_not_le _ _ H E).
Qed.

Lemma Qltb_nlt (a b : Q) : Qltb a b = false <-> ~ a < b.
Proof.
  rewrite <- Qltb_lt. destruct (Qltb a b); split; intros; congruence.
Qed.

Lemma Qltb_le_false (a b : Q) : b <= a -> Qltb a b = false.
Proof. intros H. apply Qltb_nlt. apply Qle_not_lt. exact H. Qed.

(** ** The speed detector *)

Module SpeedFacts.

Import SpeedDetector SpeedVocabulary SpeedScenario.

(** *** Time difference and speed (lines 47-60) *)

Lemma speed_of_positive (dist dt : Q) :
  0 < dt -> speed_of dist dt = inr (dist / dt).
Proof.
  intros Hdt. unfold speed_of, Qgtb.
  rewrite (proj2 (Qltb_lt 0 dt) Hdt). unfold py_div.
  destruct (Qeq_bool dt 0) eqn:E; [|reflexivity].
  apply Qeq_bool_iff in E. rewrite E in Hdt.
  exfalso. exact (Qlt_irrefl 0 Hdt).
Qed.

Lemma speed_of_nonpositive (dist dt : Q) :
  ~ 0 < dt -> speed_of dist dt = inr 0.
Proof.
  intros Hdt. unfold speed_of, Qgtb.
  rewrite (proj2 (Qltb_nlt 0 dt) Hdt). reflexivity.
Qed.

Lemma speed_of_total (dist dt : Q) : exists speed, speed_of dist dt = inr speed.
Proof.
  destruct (Qlt_le_dec 0 dt) as [H|H].
  - eexists. apply speed_of_positive. exact H.
  - eexists. apply speed_of_nonpositive. apply Qle_not_lt. exact H.
Qed.

Lemma elapsed_no_reference (c : clock) (ts : option Q) (last : option instant) :
  truthy last = false -> exists t, elapsed c ts last = inr (t, 1).
Proof.
  intros H. unfold elapsed, dt_try, dt_except. rewrite H.
  destruct ts; eexists; reflexivity.
Qed.

Lemma elapsed_datetime (c : clock) (tod l : Q) :
  elapsed c (Some tod) (Some (Datetime l))
  = inr (Datetime (combine (utcnow_date c) tod),
         combine (utcnow_date c) tod - l).
Proof. reflexivity. Qed.

Lemma elapsed_epoch (c : clock) (ts : option Q) (l : Q) :
  Qeq_bool l 0 = false ->
  elapsed c ts (Some (Epoch l)) = inr (Epoch (time_time c), time_time c - l).
Proof.
  intros H. unfold elapsed, dt_try, dt_except. simpl. rewrite H. simpl.
  destruct ts; reflexivity.
Qed.

Lemma elapsed_with_timestamp (c : clock) (tod : Q) (last : option instant) :
  exists t dt, elapsed c (Some tod) last = inr (t, dt).
Proof.
  destruct last as [[l|l]|].
  - rewrite elapsed_datetime. eauto.
  - destruct (Qeq_bool l 0) eqn:E.
    + destruct (elapsed_no_reference c (Some tod) (Some (Epoch l))) as [t Ht].
      * simpl. rewrite E. reflexivity.
      * eauto.
    + rewrite (elapsed_epoch _ _ _ E). eauto.
  - destruct (elapsed_no_reference c (Some tod) None) as [t Ht]; eauto.
Qed.

(** *** The shape of one call *)

(** *** The three phases (lines 62-92) *)

Ltac phases_cases :=
  unfold SpeedDetector.phases in *;
  repeat (case_match; simplify_eq/=); simplify_eq/=.

Lemma phases_keep_reference (self self' : detector) (speed dist : Q)
    (v : verdict) :
  SpeedDetector.phases self speed dist = Some (v, self') ->
  last_position self' = last_position self
  /\ last_time self' = last_time self
  /\ early_return v = true.
Proof. intros H. phases_cases; auto. Qed.

Lemma phases_after_confirmation (self : detector) (speed dist : Q) :
  consistent self -> spoof_confirmed self = true ->
  SpeedDetector.phases self speed dist = None.
Proof.
  intros Hc Hs. destruct (Hc Hs) as [H1 H2].
  unfold SpeedDetector.phases. rewrite H1, H2, Hs. reflexivity.
Qed.

Lemma phases_confirm (self self' : detector) (speed dist : Q) (v : verdict) :
  SpeedDetector.phases self speed dist = Some (v, self') ->
  state v = SPOOFING_CONFIRMED ->
  spoof_confirmed self = false /\ spoof_confirmed self' = true.
Proof.
  intros H Hv. unfold state in Hv. phases_cases; try discriminate.
  split; [|reflexivity].
  match goal with
  | E : _ && negb (spoof_confirmed _) = true |- _ =>
      apply andb_true_iff in E; destruct E as [_ E];
      apply negb_true_iff in E; exact E
  end.
Qed.

Lemma phases_consistent (self self' : detector) (speed dist : Q) (v : verdict) :
  SpeedDetector.phases self speed dist = Some (v, self') ->
  consistent self ->
  consistent self'
  /\ (spoof_confirmed self = true -> spoof_confirmed self' = true).
Proof.
  intros H Hc. unfold consistent in *.
  phases_cases; simpl; split; auto;
    repeat match goal with
    | E : negb _ = true |- _ => apply negb_true_iff in E
    | E : negb _ = false |- _ => apply negb_false_iff in E
    | E : _ && _ = true |- _ => apply andb_true_iff in E; destruct E
    end;
    try (intros Hs; destruct (Hc Hs); split; congruence);
    try (intros _; split; congruence);
    try congruence.
Qed.

Section Calls.

Variable geodesic : position -> position -> Q.

Local Abbreviation process := (SpeedDetector.process geodesic).
Local Abbreviation run := (SpeedDetector.run geodesic).
Local Abbreviation reachable := (SpeedDetector.reachable geodesic).

Lemma process_no_fix (self : detector) (c : clock) (msg : gga) :
  gps_qual msg = 0%Z ->
  process self c (Parsed msg) = ((NO_FIX, NoValue, false), self).
Proof.
  intros H. unfold process, SpeedDetector.process, process_body. simpl.
  rewrite H. reflexivity.
Qed.

(** A call either raises (and reports [ERROR]), sees no fix, returns from one
    of the phases, or falls through to the update of the reference. *)
Lemma process_cases (self : detector) (c : clock) (line : nmea_line) :
  (exists e, process self c line = ((ERROR, Message e, false), self))
  \/ process self c line = ((NO_FIX, NoValue, false), self)
  \/ (exists last speed dist,
        last_position self = Some last
        /\ phases self speed dist = Some (process self c line))
  \/ (exists p t,
        process self c line
        = ((NORMAL, NoValue, false), set_reference self p t)).
Proof.
  unfold process, SpeedDetector.process, process_body.
  destruct line as [|msg]; simpl; [left; eauto|].
  destruct (gps_qual msg =? 0)%Z; simpl; [right; left; reflexivity|].
  destruct (coords msg) as [p|]; simpl; [|left; eauto].
  destruct (elapsed c (timestamp msg) (last_time self)) as [e|[t dt]]; simpl;
    [left; eauto|].
  destruct (last_position self) as [last|] eqn:Hlast; simpl.
  - destruct (speed_of (geodesic last p) dt) as [e|speed] eqn:Hs; simpl;
      [left; eauto|].
    destruct (SpeedDetector.phases self speed (geodesic last p)) as [r|] eqn:Hp;
      simpl.
    + right; right; left. exists last, speed, (geodesic last p). auto.
    + right; right; right. eauto.
  - right; right; right. eauto.
Qed.

(** A well-formed fix (position and time of day present) of non-zero quality
    never raises. *)
Lemma process_fix (self : detector) (c : clock) (msg : gga)
    (p : position) (tod : Q) :
  gps_qual msg <> 0%Z -> coords msg = Some p -> timestamp msg = Some tod ->
  exists t dt,
    elapsed c (Some tod) (last_time self) = inr (t, dt)
    /\ process self c (Parsed msg)
       = match last_position self with
         | Some last =>
             let dist := geodesic last p in
             let speed := if Qgtb dt 0 then dist / dt else 0 in
             match phases self speed dist with
             | Some r => r
             | None => ((NORMAL, NoValue, false), set_reference self p t)
             end
         | None => ((NORMAL, NoValue, false), set_reference self p t)
         end.
Proof.
  intros Hq Hp Ht.
  destruct (elapsed_with_timestamp c tod (last_time self)) as (t & dt & He).
  exists t, dt. split; [exact He|].
  unfold process, SpeedDetector.process, process_body. simpl.
  destruct (Z.eqb_spec (gps_qual msg) 0) as [E|_]; [contradiction|].
  rewrite Hp, Ht. simpl. rewrite He. simpl.
  destruct (last_position self) as [last|]; simpl; [|reflexivity].
  destruct (Qgtb dt 0) eqn:Hdt.
  - rewrite (speed_of_positive _ _ (proj1 (Qltb_lt 0 dt) Hdt)). simpl.
    destruct (SpeedDetector.phases _ _ _); reflexivity.
  - rewrite (speed_of_nonpositive _ _ (proj1 (Qltb_nlt 0 dt) Hdt)). simpl.
    destruct (SpeedDetector.phases _ _ _); reflexivity.
Qed.

(** *** Consequences for one call and for a run *)

Lemma early_return_keeps_reference (self : detector) (c : clock)
    (line : nmea_line) :
  early_return (process self c line).1 = true ->
  last_position (process self c line).2 = last_position self
  /\ last_time (process self c line).2 = last_time self.
Proof.
  intros H.
  destruct (process_cases self c line)
    as [[e He]|[He|[(last & speed & dist & _ & Hp)|(p & t & He)]]].
  - rewrite He in *. discriminate.
  - rewrite He in *. discriminate.
  - destruct (process self c line) as [v self'].
    apply phases_keep_reference in Hp. tauto.
  - rewrite He in *. discriminate.
Qed.

Lemma process_consistent (self : detector) (c : clock) (line : nmea_line) :
  consistent self ->
  consistent (process self c line).2
  /\ (spoof_confirmed self = true ->
      spoof_confirmed (process self c line).2 = true).
Proof.
  intros Hc.
  destruct (process_cases self c line)
    as [[e He]|[He|[(last & speed & dist & _ & Hp)|(p & t & He)]]].
  - rewrite He. simpl. auto.
  - rewrite He. simpl. auto.
  - destruct (process self c line) as [v self'].
    exact (phases_consistent _ _ _ _ _ Hp Hc).
  - rewrite He. simpl. auto.
Qed.

Lemma reachable_consistent (self : detector) :
  reachable self -> consistent self.
Proof.
  induction 1 as [|self c line _ IH].
  - intros H. discriminate.
  - apply process_consistent. exact IH.
Qed.

Lemma run_reachable (self : detector) (inputs : list (clock * nmea_line)) :
  reachable self -> reachable (run self inputs).2.
Proof.
  revert self. induction inputs as [|[c line] rest IH]; intros self H.
  - exact H.
  - simpl. pose proof (reachable_process geodesic self c line H) as H1.
    destruct (SpeedDetector.process geodesic self c line) as [v self1].
    specialize (IH self1 H1).
    destruct (SpeedDetector.run geodesic self1 rest) as [vs self2].
    exact IH.
Qed.

Lemma process_after_confirmation (self : detector) (c : clock)
    (line : nmea_line) :
  consistent self -> spoof_confirmed self = true ->
  outside_phases (process self c line).1 = true.
Proof.
  intros Hc Hs.
  destruct (process_cases self c line)
    as [[e He]|[He|[(last & speed & dist & _ & Hp)|(p & t & He)]]].
  - rewrite He. reflexivity.
  - rewrite He. reflexivity.
  - rewrite (phases_after_confirmation _ speed dist Hc Hs) in Hp. discriminate.
  - rewrite He. reflexivity.
Qed.

Lemma process_confirms (self : detector) (c : clock) (line : nmea_line) :
  state (process self c line).1 = SPOOFING_CONFIRMED ->
  spoof_confirmed self = false
  /\ spoof_confirmed (process self c line).2 = true.
Proof.
  intros H.
  destruct (process_cases self c line)
    as [[e He]|[He|[(last & speed & dist & _ & Hp)|(p & t & He)]]].
  - rewrite He in H. discriminate.
  - rewrite He in H. discriminate.
  - destruct (process self c line) as [v self'].
    exact (phases_confirm _ _ _ _ _ Hp H).
  - rewrite He in H. discriminate.
Qed.





(** *** The claims on [SpeedDetector.process] *)

(** C7.  A sentence of fix quality 0 makes [process] return [NO FIX] and
    leaves every field of the detector as it was; over a sequence made only
    of such sentences every verdict is [NO FIX] and the detector, its
    reference fix and its stabilisation flag included, ends as it started. *)
Theorem no_fix_changes_nothing (self : detector) (c : clock) (msg : gga)
    (inputs : list (clock * nmea_line)) :
  gps_qual msg = 0%Z ->
  Forall (fun i => is_no_fix i.2 = true) inputs ->
  process self c (Parsed msg) = ((NO_FIX, NoValue, false), self)
  /\ (run self inputs).2 = self
  /\ Forall (fun v => v = (NO_FIX, NoValue, false)) (run self inputs).1
  /\ length (run self inputs).1 = length inputs.
Proof.
  intros Hq Hall. split; [exact (process_no_fix self c msg Hq)|].
  induction Hall as [|[c1 line] rest Hline _ IH].
  - simpl. auto.
  - simpl in Hline. destruct line as [|m]; [discriminate|].
    simpl in Hline. apply Z.eqb_eq in Hline.
    simpl. rewrite (process_no_fix self c1 m Hline).
    destruct (SpeedDetector.run geodesic self rest) as [vs self2].
    simpl in *. destruct IH as (IH1 & IH2 & IH3).
    repeat split; auto.
Qed.

(** C1.  Evaluation at the failing input: after a first fix at (0, 0) a
    second fix of quality 1 at (0.001, 0) is answered [STABILIZING], and the
    stored reference is still the first fix, not the current one. *)
Theorem stabilizing_call_keeps_first_fix :
  let s1 := (process __init__ (today 0) (fix_at 0 0 0)).2 in
  let r := process s1 (today 1) (fix_at (1 # 1000) 0 1) in
  last_position s1 = Some (0, 0)
  /\ state r.1 = STABILIZING
  /\ last_position r.2 = Some (0, 0)
  /\ last_time r.2 = last_time s1
  /\ last_position r.2 <> Some (1 # 1000, 0).
Proof.
  intros s1 r.
  assert (Hs1 : s1 = set_reference __init__ (0, 0) (Datetime (combine 0 0)))
    by reflexivity.
  assert (Hr : state r.1 = STABILIZING).
  { subst r.
    destruct (process_fix s1 (today 1) (mk_gga 1 (Some (1 # 1000, 0)) (Some 1))
                (1 # 1000, 0) 1) as (t & dt & _ & Hp);
      [discriminate|reflexivity|reflexivity|].
    unfold fix_at. rewrite Hp. rewrite Hs1.
    cbn [last_position set_reference stabilized __init__].
    unfold SpeedDetector.phases.
    cbn [last_position set_reference stabilized __init__ negb].
    repeat case_match; reflexivity. }
  destruct (early_return_keeps_reference s1 (today 1) (fix_at (1 # 1000) 0 1))
    as [Hpos Htime].
  { fold r. unfold early_return. rewrite Hr. reflexivity. }
  fold r in Hpos, Htime.
  split; [rewrite Hs1; reflexivity|].
  split; [exact Hr|].
  split; [rewrite Hpos, Hs1; reflexivity|].
  split; [exact Htime|].
  rewrite Hpos, Hs1. simpl. intros E. discriminate.
Qed.

(** C8, as amended.  [dt] is 1 when no reference time is stored; with a
    stored reference it is the signed difference between the current time
    and the reference, whatever their order, the wall clock standing for the
    current time when the sentence's own time cannot be used.  The speed is
    [dist / dt] when [dt > 0] and 0 otherwise, and no call reports a division
    by zero. *)
Theorem dt_and_speed_guard (self : detector) (c : clock) (line : nmea_line)
    (ts : option Q) (last : option instant) (tod l dist dt : Q) :
  (truthy last = false -> exists t, elapsed c ts last = inr (t, 1))
  /\ elapsed c (Some tod) (Some (Datetime l))
     = inr (Datetime (combine (utcnow_date c) tod),
            combine (utcnow_date c) tod - l)
  /\ (Qeq_bool l 0 = false ->
      elapsed c ts (Some (Epoch l))
      = inr (Epoch (time_time c), time_time c - l))
  /\ (0 < dt -> speed_of dist dt = inr (dist / dt))
  /\ (~ 0 < dt -> speed_of dist dt = inr 0)
  /\ (process self c line).1.1.2 <> Message ZeroDivisionError.
Proof.
  split; [apply elapsed_no_reference|].
  split; [apply elapsed_datetime|].
  split; [apply elapsed_epoch|].
  split; [apply speed_of_positive|].
  split; [apply speed_of_nonpositive|].
  unfold SpeedDetector.process, process_body.
  destruct line as [|msg]; simpl; [discriminate|].
  destruct (gps_qual msg =? 0)%Z; simpl; [discriminate|].
  destruct (coords msg) as [p|]; simpl; [|discriminate].
  destruct (elapsed c (timestamp msg) (last_time self)) as [e|[t dt']] eqn:He;
    simpl.
  - assert (e = TypeError) as ->; [|discriminate].
    unfold elapsed, dt_try, dt_except, raise in He.
    repeat case_match; simplify_eq/=; try reflexivity; discriminate.
  - destruct (last_position self) as [lastp|]; simpl; [|discriminate].
    destruct (speed_of_total (geodesic lastp p) dt') as [speed Hs].
    rewrite Hs. simpl.
    destruct (SpeedDetector.phases self speed (geodesic lastp p))
      as [[v self']|] eqn:Hp; simpl; [|discriminate].
    unfold SpeedDetector.phases in Hp.
    repeat case_match; simplify_eq/=; discriminate.
Qed.


End Calls.

(** C8 as stated fails.  With a reference at second 10 and a sentence timed
    at second 5 the two instants are out of order and [dt] is -5; when the
    sentence carries no usable time and the reference is a wall-clock
    reading of 40, the clock (100) is read and [dt] is 60.  Neither is 1. *)
Lemma dt_is_not_reset_to_one :
  combine 0 5 < 10
  /\ elapsed (mk_clock 0 100) (Some 5) (Some (Datetime 10))
     = inr (Datetime 5, -5)
  /\ ~ -5 == 1
  /\ dt_try (mk_clock 0 100) None (Some (Epoch 40)) = inl TypeError
  /\ elapsed (mk_clock 0 100) None (Some (Epoch 40)) = inr (Epoch 100, 60)
  /\ ~ 60 == 1.
Proof.
  split; [reflexivity|].
  split; [vm_compute; reflexivity|].
  split; [intros H; vm_compute in H; discriminate|].
  split; [reflexivity|].
  split; [vm_compute; reflexivity|].
  intros H. vm_compute in H. discriminate.
Qed.

Lemma no_fix_changes_nothing_witness :
  process flat_metres confirmed_detector (today 30) (no_fix_at 30)
  = ((NO_FIX, NoValue, false), confirmed_detector)
  /\ (run flat_metres confirmed_detector
        [(today 30, no_fix_at 30); (today 31, no_fix_at 31)]).2
     = confirmed_detector.
Proof.
  destruct (no_fix_changes_nothing flat_metres confirmed_detector (today 30)
              (mk_gga 0 None (Some 30))
              [(today 30, no_fix_at 30); (today 31, no_fix_at 31)])
    as (H1 & H2 & _).
  - reflexivity.
  - repeat constructor.
  - split; [exact H1 | exact H2].
Defined.

Lemma dt_and_speed_guard_witness :
  (exists t, elapsed (today 7) (Some 7) None = inr (t, 1))
  /\ speed_of 111 5 = inr (111 / 5)
  /\ speed_of 111 (-5) = inr 0.
Proof.
  pose proof (dt_and_speed_guard flat_metres __init__ (today 7) Unparsed
                (Some 7) None 0 0 111 5) as (H1 & _ & _ & H4 & _).
  pose proof (dt_and_speed_guard flat_metres __init__ (today 7) Unparsed
                (Some 7) None 0 0 111 (-5)) as (_ & _ & _ & _ & H5 & _).
  split; [apply H1; reflexivity|].
  split; [apply H4; reflexivity|].
  apply H5. intros H. vm_compute in H. discriminate.
Defined.


End SpeedFacts.

(** ** The SNR detector *)

Module SNRFacts.

Import SNRDetector SNRVocabulary SNRScenario.

(** *** Reading a sentence (lines 79-94) *)

Lemma read_slots_dom (svs : list sv) (all filtered : gmap string Q) :
  dom filtered ⊆ dom (read_slots svs all filtered).2.
Proof.
  revert all filtered. induction svs as [|s rest IH]; intros all filtered.
  - reflexivity.
  - simpl. destruct (String.eqb (sv_prn_num s) ""); [apply IH|].
    destruct (snr s) as [|v|]; [apply IH| |reflexivity].
    destruct (Qgeb v SNR_MIN_THRESHOLD); [|apply IH].
    etransitivity; [|apply IH]. rewrite dom_insert. set_solver.
Qed.

Lemma read_slots_other (svs : list sv) (all filtered : gmap string Q)
    (prn : string) :
  (forall s v, s ∈ svs -> sv_prn_num s = prn -> snr s = SnrNumber v ->
               Qgeb v SNR_MIN_THRESHOLD = false) ->
  (read_slots svs all filtered).2 !! prn = filtered !! prn.
Proof.
  revert all filtered. induction svs as [|s rest IH]; intros all filtered H.
  - reflexivity.
  - assert (Hrest : forall s' v, s' ∈ rest -> sv_prn_num s' = prn ->
                      snr s' = SnrNumber v ->
                      Qgeb v SNR_MIN_THRESHOLD = false).
    { intros s' v Hin. apply H. right. exact Hin. }
    simpl. destruct (String.eqb (sv_prn_num s) ""); [apply IH, Hrest|].
    destruct (snr s) as [|v|] eqn:Hsnr; [apply IH, Hrest| |reflexivity].
    destruct (Qgeb v SNR_MIN_THRESHOLD) eqn:Hv; [|apply IH, Hrest].
    rewrite IH by exact Hrest.
    destruct (decide (sv_prn_num s = prn)) as [E|E].
    + rewrite (H s v) in Hv; [discriminate|left|exact E|exact Hsnr].
    + apply lookup_insert_ne. exact E.
Qed.

Lemma read_line_dom (line : nmea_line) (all filtered : gmap string Q) :
  dom filtered ⊆ dom (read_line line all filtered).2.
Proof. destruct line; simpl; [reflexivity..|apply read_slots_dom]. Qed.

Lemma read_line_other (line : nmea_line) (all filtered : gmap string Q)
    (prn : string) :
  ~ reports_reliable line prn ->
  (read_line line all filtered).2 !! prn = filtered !! prn.
Proof.
  intros H. destruct line as [| |svs]; simpl; [reflexivity..|].
  apply read_slots_other. intros s v Hin Hprn Hsnr.
  destruct (Qgeb v SNR_MIN_THRESHOLD) eqn:Hv; [|reflexivity].
  exfalso. apply H. exists s, v. simpl. auto.
Qed.

(** *** The comparison (lines 46-75) *)

Lemma compare_sat_data_within (prev curr : gmap string Q) :
  dom prev ⊆ dom curr ->
  (compare_sat_data prev curr).2 = false
  /\ Forall (fun c => is_lost_cause c = false /\ is_shock_cause c = false)
            (compare_sat_data prev curr).1.
Proof.
  intros H. unfold compare_sat_data.
  assert (Hlost : dom prev ∖ dom curr = (∅ : gset string)).
  { apply leibniz_equiv, set_equiv. intros prn.
    rewrite elem_of_difference. split.
    - intros [Hin Hout]. exfalso. apply Hout, H, Hin.
    - intros Hin. exfalso. exact (not_elem_of_empty prn Hin). }
  rewrite Hlost, size_empty.
  change (INSTANT_SHOCK_THRESHOLD <=? 0)%nat with false.
  change (DISAPPEARED_PRNS_THRESHOLD <=? 0)%nat with false.
  rewrite andb_false_r. cbn [fst snd]. split; [reflexivity|].
  rewrite app_nil_l, app_nil_r.
  apply Forall_app. split; repeat case_match; repeat constructor.
Qed.

(** The comparison itself does report the shock, whatever the streak
    counter, when five PRNs appear and five are gone. *)
Lemma compare_sat_data_shock (prev curr : gmap string Q) :
  (INSTANT_SHOCK_THRESHOLD <= size (dom curr ∖ dom prev))%nat ->
  (INSTANT_SHOCK_THRESHOLD <= size (dom prev ∖ dom curr))%nat ->
  (compare_sat_data prev curr).2 = true
  /\ InstantShock ∈ (compare_sat_data prev curr).1.
Proof.
  intros Hnew Hlost. unfold compare_sat_data.
  apply Nat.leb_le in Hnew, Hlost. rewrite Hnew, Hlost.
  cbn [fst snd andb]. split; [reflexivity|].
  rewrite !elem_of_app. right; right; right. left.
Qed.

(** *** One call of [process_gsv_for_snr] *)

Lemma process_shape (self : detector) (now : Q) (line : nmea_line) :
  let r := process_gsv_for_snr self now line in
  let read := read_line line (all_sats self) (filtered_sats self) in
  all_sats r.2 = read.1
  /\ filtered_sats r.2 = read.2
  /\ stabilization_start_time r.2 = stabilization_start_time self
  /\ (previous_avg_sats r.2 = previous_avg_sats self
      \/ previous_avg_sats r.2 = read.2)
  /\ (causes_of r.1 = []
      \/ causes_of r.1 = (compare_sat_data (previous_avg_sats self) read.2).1)
  /\ (state r.1 = SPOOFING_DETECTED ->
      (ANOMALY_CONFIRMATION_COUNT <= anomaly_counter r.2)%nat
      \/ (compare_sat_data (previous_avg_sats self) read.2).2 = true).
Proof.
  unfold process_gsv_for_snr.
  destruct (read_line line (all_sats self) (filtered_sats self))
    as [all filtered] eqn:Hread.
  cbn [fst snd].
  destruct (Qltb _ STABILIZATION_DURATION); [simpl; intuition discriminate|].
  destruct (_ <? MIN_SAT_FOR_ANALYSIS)%nat; [simpl; intuition discriminate|].
  destruct (bool_decide _); [|simpl; intuition discriminate].
  cbn [set_sats set_snr_history previous_avg_sats filtered_sats].
  destruct (compare_sat_data (previous_avg_sats self) filtered)
    as [causes spoof_now] eqn:Hcmp.
  cbn [set_anomaly_counter anomaly_counter].
  destruct (_ || spoof_now) eqn:Hor; simpl.
  - repeat split; auto. intros _.
    apply orb_true_iff in Hor. destruct Hor as [Hor|Hor]; [left|right; exact Hor].
    apply Nat.leb_le in Hor. exact Hor.
  - intuition discriminate.
Qed.

Lemma process_baseline_within (self : detector) (now : Q) (line : nmea_line) :
  baseline_within self ->
  baseline_within (process_gsv_for_snr self now line).2.
Proof.
  unfold baseline_within. intros H.
  destruct (process_shape self now line) as (_ & Hf & _ & Hp & _).
  rewrite Hf.
  pose proof (read_line_dom line (all_sats self) (filtered_sats self)) as Hd.
  destruct Hp as [Hp|Hp]; rewrite Hp; [|reflexivity].
  etransitivity; eassumption.
Qed.

Lemma reachable_baseline_within (self : detector) :
  reachable self -> baseline_within self.
Proof.
  induction 1 as [now|self now line _ IH].
  - unfold baseline_within. reflexivity.
  - apply process_baseline_within. exact IH.
Qed.

Lemma snr_run_reachable (self : detector) (inputs : list (Q * nmea_line)) :
  reachable self -> reachable (run self inputs).2.
Proof.
  revert self. induction inputs as [|[now line] rest IH]; intros self H.
  - exact H.
  - simpl. pose proof (reachable_process self now line H) as H1.
    destruct (process_gsv_for_snr self now line) as [v self1].
    specialize (IH self1 H1).
    destruct (run self1 rest) as [vs self2]. exact IH.
Qed.

Lemma run_filtered_dom (self : detector) (inputs : list (Q * nmea_line)) :
  dom (filtered_sats self) ⊆ dom (filtered_sats (run self inputs).2).
Proof.
  revert self. induction inputs as [|[now line] rest IH]; intros self.
  - reflexivity.
  - simpl. destruct (process_shape self now line) as (_ & Hf & _).
    pose proof (read_line_dom line (all_sats self) (filtered_sats self)) as Hd.
    destruct (process_gsv_for_snr self now line) as [v self1].
    simpl in Hf. specialize (IH self1).
    destruct (run self1 rest) as [vs self2]. simpl in *.
    rewrite Hf in IH. etransitivity; eassumption.
Qed.

(** In a call on a reachable detector the comparison sees no lost PRN. *)
Lemma process_compares_within (self : detector) (now : Q) (line : nmea_line) :
  reachable self ->
  dom (previous_avg_sats self)
  ⊆ dom (filtered_sats (process_gsv_for_snr self now line).2).
Proof.
  intros H. apply reachable_baseline_within in H. unfold baseline_within in H.
  destruct (process_shape self now line) as (_ & Hf & _). rewrite Hf.
  etransitivity; [exact H|apply read_line_dom].
Qed.

Lemma process_causes (self : detector) (now : Q) (line : nmea_line) :
  reachable self ->
  Forall (fun c => is_lost_cause c = false /\ is_shock_cause c = false)
         (causes_of (process_gsv_for_snr self now line).1).
Proof.
  intros H. pose proof (process_compares_within self now line H) as Hw.
  destruct (process_shape self now line) as (_ & Hf & _ & _ & Hc & _).
  rewrite Hf in Hw.
  destruct Hc as [Hc|Hc]; rewrite Hc; [constructor|].
  apply compare_sat_data_within. exact Hw.
Qed.

Lemma run_causes (self : detector) (inputs : list (Q * nmea_line)) :
  reachable self ->
  Forall (fun v => Forall (fun c => is_lost_cause c = false
                                    /\ is_shock_cause c = false)
                          (causes_of v))
         (run self inputs).1.
Proof.
  revert self. induction inputs as [|[now line] rest IH]; intros self H.
  - constructor.
  - simpl. pose proof (process_causes self now line H) as Hc.
    pose proof (reachable_process self now line H) as H1.
    destruct (process_gsv_for_snr self now line) as [v self1].
    specialize (IH self1 H1).
    destruct (run self1 rest) as [vs self2].
    constructor; assumption.
Qed.

(** *** The claims on [SNRDetector.process_gsv_for_snr] *)

(** C2, as amended.  A call made before the warm-up has elapsed returns
    [STABILIZING], and leaves the comparison baseline, the anomaly counter
    and the SNR history windows as they were: the sentence's samples go only
    into the two accumulated satellite maps. *)
Theorem warmup_call_only_reads (self : detector) (now : Q)
    (line : nmea_line) :
  now - stabilization_start_time self < STABILIZATION_DURATION ->
  let r := process_gsv_for_snr self now line in
  r.1 = (STABILIZING, [], false)
  /\ previous_avg_sats r.2 = previous_avg_sats self
  /\ anomaly_counter r.2 = anomaly_counter self
  /\ snr_history r.2 = snr_history self
  /\ (all_sats r.2, filtered_sats r.2)
     = read_line line (all_sats self) (filtered_sats self).
Proof.
  intros H. apply Qltb_lt in H. unfold process_gsv_for_snr.
  destruct (read_line line (all_sats self) (filtered_sats self))
    as [all filtered].
  cbn [set_sats stabilization_start_time]. rewrite H. simpl. auto.
Qed.

(** C3.  Evaluation at the failing input: a satellite reported at SNR 30 and
    then at SNR 10 is still in the filtered map, at 30, after the second
    call, and so are the satellites the second sentence does not mention. *)
Theorem filtered_set_keeps_stale_entry :
  let r := run (__init__ 0) [(70, first_four); (71, first_weak)] in
  all_sats r.2 !! "01"%string = Some 10
  /\ Qgeb 10 SNR_MIN_THRESHOLD = false
  /\ filtered_sats r.2 !! "01"%string = Some 30
  /\ dom (filtered_sats r.2)
     = ({[ "01"; "02"; "03"; "04" ]} : gset string)%string.
Proof. vm_compute. repeat split. Qed.

(** C4.  In no call on a reachable detector does the comparison count a lost
    PRN, so the instant-shock test is false, no cause names it, and a
    [SPOOFING_DETECTED] verdict is always owed to the anomaly counter having
    reached its threshold. *)
Theorem instant_shock_never_fires (self : detector) (now : Q)
    (line : nmea_line) :
  reachable self ->
  let r := process_gsv_for_snr self now line in
  size (dom (previous_avg_sats self) ∖ dom (filtered_sats r.2)) = 0%nat
  /\ (compare_sat_data (previous_avg_sats self) (filtered_sats r.2)).2 = false
  /\ Forall (fun c => is_shock_cause c = false) (causes_of r.1)
  /\ (state r.1 = SPOOFING_DETECTED ->
      (ANOMALY_CONFIRMATION_COUNT <= anomaly_counter r.2)%nat).
Proof.
  intros H r.
  pose proof (process_compares_within self now line H) as Hw. fold r in Hw.
  destruct (compare_sat_data_within _ _ Hw) as [Hnow _].
  split.
  { replace (dom (previous_avg_sats self) ∖ dom (filtered_sats r.2))
      with (∅ : gset string); [apply size_empty|].
    symmetry. apply leibniz_equiv, set_equiv. intros prn.
    rewrite elem_of_difference. split.
    - intros [Hin Hout]. exfalso. apply Hout, Hw, Hin.
    - intros Hin. exfalso. exact (not_elem_of_empty prn Hin). }
  split; [exact Hnow|].
  split.
  { eapply Forall_impl; [exact (process_causes self now line H)|].
    intros c [_ Hc]. exact Hc. }
  intros Hstate.
  destruct (process_shape self now line) as (_ & Hf & _ & _ & _ & Hd).
  destruct (Hd Hstate) as [Hcount|Hshock]; [exact Hcount|].
  fold r in Hf. rewrite <- Hf in Hshock. congruence.
Qed.

(** C9.  The filtered map only gains keys, over one call and over any
    sequence of calls; a PRN for which the sentence carries no SNR at or
    above the floor keeps the value it had; hence the set of lost PRNs is
    empty in every comparison and no verdict carries the
    disappeared-satellites cause. *)
Theorem filtered_keys_never_shrink (self : detector) (now : Q)
    (line : nmea_line) (inputs : list (Q * nmea_line)) (prn : string) :
  reachable self ->
  let r := process_gsv_for_snr self now line in
  dom (filtered_sats self) ⊆ dom (filtered_sats r.2)
  /\ dom (filtered_sats self) ⊆ dom (filtered_sats (run self inputs).2)
  /\ (~ reports_reliable line prn ->
      filtered_sats r.2 !! prn = filtered_sats self !! prn)
  /\ dom (previous_avg_sats self) ∖ dom (filtered_sats r.2) = ∅
  /\ Forall (fun c => is_lost_cause c = false) (causes_of r.1)
  /\ Forall (fun v => Forall (fun c => is_lost_cause c = false) (causes_of v))
            (run self inputs).1.
Proof.
  intros H r.
  destruct (process_shape self now line) as (_ & Hf & _). fold r in Hf.
  split.
  { rewrite Hf. apply read_line_dom. }
  split; [apply run_filtered_dom|].
  split.
  { intros Hprn. rewrite Hf. apply read_line_other. exact Hprn. }
  split.
  { pose proof (process_compares_within self now line H) as Hw. fold r in Hw.
    apply leibniz_equiv, set_equiv. intros k.
    rewrite elem_of_difference. split.
    - intros [Hin Hout]. exfalso. apply Hout, Hw, Hin.
    - intros Hin. exfalso. exact (not_elem_of_empty k Hin). }
  split.
  { eapply Forall_impl; [exact (process_causes self now line H)|].
    intros c [Hc _]. exact Hc. }
  eapply Forall_impl; [exact (run_causes self inputs H)|].
  intros v Hv. eapply Forall_impl; [exact Hv|].
  intros c [Hc _]. exact Hc.
Qed.

(** C2 as stated fails.  A call at second 10 of the warm-up, on a sentence
    giving PRN 01 an SNR of 30, returns [STABILIZING] and leaves the baseline
    alone, but no window of the SNR history receives the sample: the history
    is still empty. *)
Lemma warmup_appends_no_sample :
  let self := __init__ 0 in
  let r := process_gsv_for_snr self 10 (Parsed [strong "01"]) in
  10 - stabilization_start_time self < STABILIZATION_DURATION
  /\ state r.1 = STABILIZING
  /\ previous_avg_sats r.2 = previous_avg_sats self
  /\ all_sats r.2 !! "01"%string = Some 30
  /\ snr_history r.2 !! "01"%string = None
  /\ snr_history r.2 = ∅.
Proof. vm_compute. repeat split. Qed.

Lemma warmup_call_only_reads_witness :
  let r := process_gsv_for_snr (__init__ 0) 10 first_four in
  r.1 = (STABILIZING, [], false)
  /\ snr_history r.2 = snr_history (__init__ 0).
Proof.
  destruct (warmup_call_only_reads (__init__ 0) 10 first_four)
    as (H1 & _ & _ & H4 & _).
  - reflexivity.
  - split; [exact H1 | exact H4].
Defined.

Lemma instant_shock_never_fires_witness :
  let r := process_gsv_for_snr primed 61 other_four in
  dom (previous_avg_sats primed)
  = ({[ "01"; "02"; "03"; "04"; "05" ]} : gset string)%string
  /\ state r.1 = NORMAL
  /\ (compare_sat_data (previous_avg_sats primed) (filtered_sats r.2)).2
     = false.
Proof.
  assert (Hreach : reachable primed).
  { apply snr_run_reachable. constructor. }
  destruct (instant_shock_never_fires primed 61 other_four Hreach)
    as (_ & H2 & _).
  split; [vm_compute; reflexivity|].
  split; [vm_compute; reflexivity|exact H2].
Defined.

Lemma filtered_keys_never_shrink_witness :
  let r := process_gsv_for_snr primed 61 first_weak in
  dom (filtered_sats primed) ⊆ dom (filtered_sats r.2)
  /\ filtered_sats r.2 !! "01"%string = Some 30
  /\ all_sats r.2 !! "01"%string = Some 10
  /\ dom (previous_avg_sats primed) ∖ dom (filtered_sats r.2) = ∅.
Proof.
  assert (Hreach : reachable primed).
  { apply snr_run_reachable. constructor. }
  destruct (filtered_keys_never_shrink primed 61 first_weak [] "01"%string
              Hreach)
    as (H1 & _ & H3 & H4 & _).
  split; [exact H1|].
  split.
  { rewrite H3; [vm_compute; reflexivity|].
    intros (s & v & Hin & _ & Hsnr & Hv).
    apply list_elem_of_singleton in Hin. subst s.
    injection Hsnr as <-. vm_compute in Hv. discriminate. }
  split; [vm_compute; reflexivity | exact H4].
Defined.

End SNRFacts.

(** ** The mode switch *)

Module SwitchFacts.

Import Final_Map_Project SwitchScenario.

(** *** The flag returned by the detectors *)

Lemma speed_detected_iff_confirmed
    (geodesic : SpeedDetector.position -> SpeedDetector.position -> Q)
    (self : SpeedDetector.detector) (c : SpeedDetector.clock)
    (line : SpeedDetector.nmea_line) :
  confirmed (SpeedReport (SpeedDetector.process geodesic self c line).1)
  = spoof (SpeedReport (SpeedDetector.process geodesic self c line).1).
Proof.
  destruct (SpeedFacts.process_cases geodesic self c line)
    as [[e He]|[He|[(last & speed & dist & _ & Hp)|(p & t & He)]]];
    try (rewrite He; reflexivity).
  destruct (SpeedDetector.process geodesic self c line) as [v self'].
  unfold SpeedDetector.phases in Hp.
  repeat case_match; simplify_eq/=; reflexivity.
Qed.

Lemma snr_detected_iff_confirmed (self : SNRDetector.detector) (now : Q)
    (line : SNRDetector.nmea_line) :
  confirmed (SnrReport (SNRDetector.process_gsv_for_snr self now line).1)
  = spoof (SnrReport (SNRDetector.process_gsv_for_snr self now line).1).
Proof.
  unfold SNRDetector.process_gsv_for_snr.
  repeat case_match; reflexivity.
Qed.

Section Loop.

Variable geodesic : SpeedDetector.position -> SpeedDetector.position -> Q.
Variable display : Type.
Variable map_matching : display -> SpeedDetector.nmea_line -> display.

Local Abbreviation consult := (Final_Map_Project.consult geodesic).
Local Abbreviation iteration :=
  (Final_Map_Project.iteration geodesic display map_matching).
Local Abbreviation gps_reader :=
  (Final_Map_Project.gps_reader geodesic display map_matching).
Local Abbreviation modes :=
  (Final_Map_Project.modes geodesic display map_matching).

Lemma consult_confirmed (g : globals) (line : serial_line) (k : tick) :
  confirmed (consult g line k).1 = spoof (consult g line k).1.
Proof.
  destruct line as [l|l|]; simpl.
  - pose proof (speed_detected_iff_confirmed geodesic (speed_detector g)
                  (detector_clock k) l) as H.
    destruct (SpeedDetector.process _ _ _ _) as [v d]. exact H.
  - pose proof (snr_detected_iff_confirmed (snr_detector g)
                  (SpeedDetector.time_time (detector_clock k)) l) as H.
    destruct (SNRDetector.process_gsv_for_snr _ _ _) as [v d]. exact H.
  - reflexivity.
Qed.

Lemma consult_globals (g : globals) (line : serial_line) (k : tick) :
  start_time (consult g line k).2 = start_time g
  /\ autonomous_mode (consult g line k).2 = autonomous_mode g.
Proof.
  destruct line as [l|l|]; simpl.
  - destruct (SpeedDetector.process _ _ _ _) as [v d]. auto.
  - destruct (SNRDetector.process_gsv_for_snr _ _ _) as [v d]. auto.
  - auto.
Qed.

(** An iteration either raises the flag from [Tracking] and returns with the
    alert, or leaves the flag as it found it. *)
Lemma iteration_mode (g : globals) (shown : display) (e : event) :
  ((iteration g shown e).2 = Alert
   /\ autonomous_mode g = Tracking
   /\ autonomous_mode (iteration g shown e).1.1 = Fallback)
  \/ ((iteration g shown e).2 <> Alert
      /\ autonomous_mode (iteration g shown e).1.1 = autonomous_mode g).
Proof.
  destruct e as [|line k]; simpl; [right; split; [discriminate|reflexivity]|].
  destruct (consult_globals g line k) as [_ Hm].
  destruct (Final_Map_Project.consult geodesic g line k) as [r g1].
  simpl in Hm.
  destruct (spoof r && negb (autonomous_mode g1)) eqn:Hs.
  - destruct (Qgtb _ STABILIZATION_DURATION).
    + left. simpl. apply andb_true_iff in Hs. destruct Hs as [_ Hs].
      apply negb_true_iff in Hs. unfold Tracking, Fallback.
      repeat split; congruence.
    + right. simpl. split; [discriminate|exact Hm].
  - right. simpl. split; [discriminate|exact Hm].
Qed.

Lemma iteration_continue (g g1 : globals) (shown shown1 : display)
    (e : event) :
  Final_Map_Project.iteration geodesic display map_matching g shown e
  = (g1, shown1, Continue) ->
  autonomous_mode g1 = autonomous_mode g.
Proof.
  intros H. destruct (iteration_mode g shown e) as [(Ha & _)|(_ & Hm)];
    rewrite H in *; simpl in *; [discriminate|exact Hm].
Qed.

Lemma iteration_stop (g : globals) (shown : display) (e : event) :
  autonomous_mode g = Fallback ->
  autonomous_mode (iteration g shown e).1.1 = Fallback.
Proof.
  intros H. destruct (iteration_mode g shown e) as [(_ & Ht & _)|(_ & Hm)].
  - unfold Tracking, Fallback in *. congruence.
  - congruence.
Qed.

Lemma modes_fallback (g : globals) (shown : display) (events : list event) :
  autonomous_mode g = Fallback ->
  Forall (fun b => b = Fallback) (modes g shown events).
Proof.
  revert g shown. induction events as [|e rest IH]; intros g shown H.
  - constructor.
  - simpl. pose proof (iteration_stop g shown e H) as H1.
    destruct (Final_Map_Project.iteration geodesic display map_matching
                g shown e) as [[g1 shown1] o].
    simpl in H1. destruct o; repeat constructor; auto.
Qed.

Lemma switches_fallback (flags : list bool) :
  Forall (fun b => b = Fallback) flags -> switches Fallback flags = 0%nat.
Proof.
  induction 1 as [|b rest Hb _ IH]; [reflexivity|].
  simpl. rewrite Hb. simpl. exact IH.
Qed.

Lemma modes_switch_once (g : globals) (shown : display)
    (events : list event) :
  (switches (autonomous_mode g) (modes g shown events) <= 1)%nat.
Proof.
  revert g shown. induction events as [|e rest IH]; intros g shown.
  - simpl. lia.
  - simpl. destruct (iteration_mode g shown e) as [(Ha & Ht & Hf)|(Ha & Hm)];
      destruct (Final_Map_Project.iteration geodesic display map_matching
                  g shown e) as [[g1 shown1] o]; simpl in *.
    + subst o. simpl. rewrite Ht, Hf. simpl. lia.
    + destruct o; simpl; rewrite Hm, eqb_reflx; simpl;
        [rewrite <- Hm; apply IH|congruence|lia].
Qed.

Lemma modes_monotone (g : globals) (shown : display) (events : list event)
    (i j : nat) (b : bool) :
  (i <= j)%nat ->
  modes g shown events !! i = Some Fallback ->
  modes g shown events !! j = Some b ->
  b = Fallback.
Proof.
  revert g shown i j. induction events as [|e rest IH]; intros g shown i j.
  - simpl. intros _ H. discriminate.
  - simpl.
    destruct (Final_Map_Project.iteration geodesic display map_matching
                g shown e) as [[g1 shown1] o] eqn:He.
    assert (Hstop : (i <= j)%nat -> [autonomous_mode g1] !! i = Some Fallback ->
                    [autonomous_mode g1] !! j = Some b -> b = Fallback).
    { intros Hij Hi Hj. destruct i as [|i]; [|discriminate].
      destruct j as [|j]; [|discriminate]. simpl in *. congruence. }
    destruct o; [|exact Hstop|exact Hstop].
    intros Hij Hi Hj. destruct i as [|i].
    + simpl in Hi. injection Hi as Hi.
      pose proof (modes_fallback g1 shown1 rest Hi) as Hall.
      destruct j as [|j]; simpl in Hj; [congruence|].
      rewrite Forall_lookup in Hall. exact (Hall j b Hj).
    + destruct j as [|j]; [lia|]. simpl in Hi, Hj.
      apply (IH g1 shown1 i j); [lia|assumption..].
Qed.

Lemma gps_reader_fallback (g : globals) (shown : display)
    (events : list event) :
  autonomous_mode g = Fallback ->
  autonomous_mode (gps_reader g shown events).1.1 = Fallback.
Proof.
  revert g shown. induction events as [|e rest IH]; intros g shown H.
  - exact H.
  - simpl. pose proof (iteration_stop g shown e H) as H1.
    destruct (Final_Map_Project.iteration geodesic display map_matching
                g shown e) as [[g1 shown1] o].
    simpl in H1. destruct o; [apply IH; exact H1|exact H1..].
Qed.

(** *** The claims on [gps_reader] *)

(** C5.  The flag starts as [Tracking]; an iteration that finds it at
    [Fallback] leaves it there; an iteration that changes it takes it from
    [Tracking] to [Fallback] and returns; over any run of the loop the flag
    changes at most once and, once seen at [Fallback], is never seen at
    [Tracking] again. *)
Theorem mode_never_reverts (now : Q) (g : globals) (shown : display)
    (e : event) (events : list event) (i j : nat) (b : bool) :
  autonomous_mode (initial now) = Tracking
  /\ (autonomous_mode g = Fallback ->
      autonomous_mode (iteration g shown e).1.1 = Fallback)
  /\ (autonomous_mode (iteration g shown e).1.1 <> autonomous_mode g ->
      autonomous_mode g = Tracking
      /\ autonomous_mode (iteration g shown e).1.1 = Fallback
      /\ (iteration g shown e).2 = Alert)
  /\ (switches (autonomous_mode g) (modes g shown events) <= 1)%nat
  /\ ((i <= j)%nat ->
      modes g shown events !! i = Some Fallback ->
      modes g shown events !! j = Some b ->
      b = Fallback)
  /\ (autonomous_mode g = Fallback ->
      autonomous_mode (gps_reader g shown events).1.1 = Fallback).
Proof.
  split; [reflexivity|].
  split; [apply iteration_stop|].
  split.
  { intros Hne. destruct (iteration_mode g shown e) as [(Ha & Ht & Hf)|(_ & Hm)].
    - auto.
    - contradiction. }
  split; [apply modes_switch_once|].
  split; [apply modes_monotone|].
  apply gps_reader_fallback.
Qed.

(** C6.  When a detector returns its confirmed verdict and the time elapsed
    since the start does not exceed the grace period, the iteration leaves
    the flag as it was, [Tracking] included, raises no alert and goes on
    reading. *)
Theorem grace_period_holds_mode (g : globals) (shown : display)
    (line : serial_line) (k : tick) :
  confirmed (consult g line k).1 = true ->
  switch_time k - start_time g <= STABILIZATION_DURATION ->
  let r := iteration g shown (Read line k) in
  autonomous_mode r.1.1 = autonomous_mode g
  /\ r.2 = Continue
  /\ (autonomous_mode g = Tracking -> autonomous_mode r.1.1 = Tracking).
Proof.
  intros _ Hgrace. simpl.
  destruct (consult_globals g line k) as [Hstart Hmode].
  destruct (Final_Map_Project.consult geodesic g line k) as [r g1].
  simpl in Hstart, Hmode.
  assert (Hgate : Qgtb (switch_time k - start_time g1) STABILIZATION_DURATION
                  = false).
  { rewrite Hstart. apply Qltb_le_false. exact Hgrace. }
  rewrite Hgate.
  destruct (spoof r && negb (autonomous_mode g1)); simpl;
    repeat split; congruence.
Qed.

End Loop.

Lemma mode_never_reverts_witness :
  let late := [confirming_fix 40; confirming_fix 41] in
  let run := modes SpeedScenario.flat_metres unit no_display
               about_to_confirm tt late in
  run = [Fallback]
  /\ (switches (autonomous_mode about_to_confirm) run <= 1)%nat
  /\ autonomous_mode
       (iteration SpeedScenario.flat_metres unit no_display
          (set_autonomous_mode about_to_confirm true) tt (confirming_fix 41)).1.1
     = Fallback.
Proof.
  destruct (mode_never_reverts SpeedScenario.flat_metres unit no_display 0
              about_to_confirm tt ReadError
              [confirming_fix 40; confirming_fix 41] 0 0 true)
    as (_ & _ & _ & H4 & _).
  destruct (mode_never_reverts SpeedScenario.flat_metres unit no_display 0
              (set_autonomous_mode about_to_confirm true) tt
              (confirming_fix 41) [] 0 0 true)
    as (_ & H2 & _).
  split; [vm_compute; reflexivity|].
  split; [exact H4|].
  apply H2. reflexivity.
Defined.

Lemma grace_period_holds_mode_witness :
  let r := iteration SpeedScenario.flat_metres unit no_display
             about_to_confirm tt (confirming_fix 20) in
  confirmed
    (consult SpeedScenario.flat_metres about_to_confirm
       (GGA (SpeedScenario.held 23))
       (mk_tick (SpeedScenario.today 23) 20)).1 = true
  /\ autonomous_mode r.1.1 = Tracking
  /\ r.2 = Continue.
Proof.
  assert (Hc : confirmed
                 (consult SpeedScenario.flat_metres about_to_confirm
                    (GGA (SpeedScenario.held 23))
                    (mk_tick (SpeedScenario.today 23) 20)).1 = true)
    by (vm_compute; reflexivity).
  destruct (grace_period_holds_mode SpeedScenario.flat_metres unit no_display
              about_to_confirm tt (GGA (SpeedScenario.held 23))
              (mk_tick (SpeedScenario.today 23) 20) Hc)
    as (H1 & H2 & _).
  - vm_compute. discriminate.
  - split; [exact Hc|]. split; [exact H1 | exact H2].
Defined.

End SwitchFacts.

(** ** More on the speed detector *)

Module SpeedMore.

Import SpeedDetector SpeedVocabulary SpeedMeasures SpeedScenario SpeedFacts.

Ltac leb_cases :=
  repeat match goal with
  | H : (_ <=? _)%nat = true |- _ => apply Nat.leb_le in H
  | H : (_ <=? _)%nat = false |- _ => apply Nat.leb_gt in H
  | H : negb _ = true |- _ => apply negb_true_iff in H
  | H : negb _ = false |- _ => apply negb_false_iff in H
  | H : _ && _ = true |- _ => apply andb_true_iff in H; destruct H
  end.

Lemma phases_coherent (self self' : detector) (speed dist : Q) (v : verdict) :
  SpeedDetector.phases self speed dist = Some (v, self') ->
  last_position self <> None ->
  coherent self -> coherent self'.
Proof.
  unfold coherent, STABILIZATION_COUNT. intros H Hpos Hc.
  destruct self as [lp lt st sc ph pc cf]. simpl in *.
  destruct Hc as (H1 & [H2 H2'] & H3 & [H4 H4'] & H5 & H6 & H7 & [H8 H8']).
  phases_cases; leb_cases; simpl in *; subst;
    (split; [|split; [split|split; [|split; [split|split; [|split;
       [|split; [|split]]]]]]]);
    intros; try lia; try congruence; try tauto;
    try (exfalso; first
      [ assert (true = false) by (first [apply H2; lia | apply H4; lia]);
        discriminate
      | assert (4 <= sc)%nat by (apply H2'; reflexivity); lia
      | assert (4 <= pc)%nat by (apply H4'; reflexivity); lia
      | assert (4 <= pc)%nat by (apply H4'; congruence); lia ]);
    auto.
Qed.

Lemma phases_progress (self self' : detector) (speed dist : Q) (v : verdict) :
  SpeedDetector.phases self speed dist = Some (v, self') ->
  (progress self' <= S (progress self))%nat.
Proof.
  unfold progress. intros H. destruct self as [lp lt st sc ph pc cf].
  simpl in *. phases_cases; leb_cases; simpl in *; subst;
    repeat case_match; lia.
Qed.

Section Calls.

Variable geodesic : position -> position -> Q.

Local Abbreviation process := (SpeedDetector.process geodesic).
Local Abbreviation run := (SpeedDetector.run geodesic).
Local Abbreviation reachable := (SpeedDetector.reachable geodesic).

(** What a verdict returned from one of the phases tells about the call. *)
Lemma process_phase (self : detector) (c : clock) (line : nmea_line) :
  early_return (process self c line).1 = true ->
  exists msg last p t dt speed,
    line = Parsed msg /\ gps_qual msg <> 0%Z /\ coords msg = Some p
    /\ last_position self = Some last
    /\ elapsed c (timestamp msg) (last_time self) = inr (t, dt)
    /\ speed_of (geodesic last p) dt = inr speed
    /\ SpeedDetector.phases self speed (geodesic last p)
       = Some (process self c line).
Proof.
  unfold process, SpeedDetector.process, process_body.
  destruct line as [|msg]; simpl; [discriminate|].
  destruct (Z.eqb_spec (gps_qual msg) 0) as [|Hq]; simpl; [discriminate|].
  destruct (coords msg) as [p|] eqn:Hc; simpl; [|discriminate].
  destruct (elapsed c (timestamp msg) (last_time self)) as [e|[t dt]] eqn:He;
    simpl; [discriminate|].
  destruct (last_position self) as [last|] eqn:Hl; simpl; [|discriminate].
  destruct (speed_of (geodesic last p) dt) as [e|speed] eqn:Hs; simpl;
    [discriminate|].
  destruct (SpeedDetector.phases self speed (geodesic last p)) as [r|] eqn:Hp;
    simpl; [|discriminate].
  intros _. exists msg, last, p, t, dt, speed.
  split; [reflexivity|]. split; [exact Hq|]. split; [exact Hc|].
  split; [reflexivity|]. split; [exact He|]. split; [exact Hs|].
  exact Hp.
Qed.

Lemma process_coherent (self : detector) (c : clock) (line : nmea_line) :
  coherent self -> coherent (process self c line).2.
Proof.
  intros Hc.
  destruct (process_cases geodesic self c line)
    as [[e He]|[He|[(last & speed & dist & Hl & Hp)|(p & t & He)]]].
  - rewrite He. exact Hc.
  - rewrite He. exact Hc.
  - destruct (process self c line) as [v self'].
    apply (phases_coherent _ _ _ _ _ Hp); [congruence|exact Hc].
  - rewrite He. unfold coherent in *. simpl.
    destruct Hc as (H1 & H2 & H3 & H4 & H5 & H6 & _ & _).
    split; [exact H1|]. split; [exact H2|]. split; [exact H3|].
    split; [exact H4|]. split; [exact H5|]. split; [exact H6|].
    split; [intros _; discriminate|]. split; discriminate.
Qed.

Lemma reachable_coherent (self : detector) : reachable self -> coherent self.
Proof.
  induction 1 as [|self c line _ IH].
  - unfold coherent, STABILIZATION_COUNT. simpl.
    repeat split; intros; try lia; try discriminate; auto.
  - apply process_coherent. exact IH.
Qed.

Lemma process_progress (self : detector) (c : clock) (line : nmea_line) :
  (progress (process self c line).2 <= S (progress self))%nat.
Proof.
  destruct (process_cases geodesic self c line)
    as [[e He]|[He|[(last & speed & dist & Hl & Hp)|(p & t & He)]]].
  - rewrite He. simpl. lia.
  - rewrite He. simpl. lia.
  - destruct (process self c line) as [v self'].
    exact (phases_progress _ _ _ _ _ Hp).
  - rewrite He. unfold progress. simpl. destruct (last_position self); lia.
Qed.

Lemma run_progress (self : detector) (inputs : list (clock * nmea_line)) :
  (progress (run self inputs).2 <= progress self + length inputs)%nat.
Proof.
  revert self. induction inputs as [|[c line] rest IH]; intros self.
  - simpl. lia.
  - simpl. pose proof (process_progress self c line) as H1.
    destruct (SpeedDetector.process geodesic self c line) as [v self1].
    specialize (IH self1).
    destruct (SpeedDetector.run geodesic self1 rest) as [vs self2].
    simpl in *. lia.
Qed.

Lemma phases_flags (self self' : detector) (speed dist : Q) (v : verdict) :
  SpeedDetector.phases self speed dist = Some (v, self') ->
  (stabilized self = true -> stabilized self' = true)
  /\ (spoofing_phase self = true -> spoofing_phase self' = true)
  /\ (spoof_confirmed self = true -> spoof_confirmed self' = true)
  /\ (stabilization_counter self <= stabilization_counter self')%nat
  /\ (spoofed_stabilization_counter self
      <= spoofed_stabilization_counter self')%nat.
Proof.
  intros H. destruct self as [lp lt st sc ph pc cf]. simpl in *.
  phases_cases; simpl; repeat split; intros; try lia; congruence.
Qed.

Lemma process_flags (self : detector) (c : clock) (line : nmea_line) :
  (stabilized self = true -> stabilized (process self c line).2 = true)
  /\ (spoofing_phase self = true ->
      spoofing_phase (process self c line).2 = true)
  /\ (spoof_confirmed self = true ->
      spoof_confirmed (process self c line).2 = true)
  /\ (stabilization_counter self
      <= stabilization_counter (process self c line).2)%nat
  /\ (spoofed_stabilization_counter self
      <= spoofed_stabilization_counter (process self c line).2)%nat.
Proof.
  destruct (process_cases geodesic self c line)
    as [[e He]|[He|[(last & speed & dist & Hl & Hp)|(p & t & He)]]].
  - rewrite He. simpl. auto.
  - rewrite He. simpl. auto.
  - destruct (process self c line) as [v self'].
    exact (phases_flags _ _ _ _ _ Hp).
  - rewrite He. simpl. auto.
Qed.

Lemma run_flags (self : detector) (inputs : list (clock * nmea_line)) :
  (stabilized self = true -> stabilized (run self inputs).2 = true)
  /\ (spoofing_phase self = true -> spoofing_phase (run self inputs).2 = true)
  /\ (spoof_confirmed self = true ->
      spoof_confirmed (run self inputs).2 = true)
  /\ (stabilization_counter self
      <= stabilization_counter (run self inputs).2)%nat
  /\ (spoofed_stabilization_counter self
      <= spoofed_stabilization_counter (run self inputs).2)%nat.
Proof.
  revert self. induction inputs as [|[c line] rest IH]; intros self.
  - simpl. auto.
  - simpl. pose proof (process_flags self c line) as H1.
    destruct (SpeedDetector.process geodesic self c line) as [v self1].
    specialize (IH self1).
    destruct (SpeedDetector.run geodesic self1 rest) as [vs self2].
    simpl in *. destruct H1 as (A1 & A2 & A3 & A4 & A5).
    destruct IH as (B1 & B2 & B3 & B4 & B5).
    repeat split; auto; lia.
Qed.

Lemma process_anomaly (self : detector) (c : clock) (line : nmea_line) :
  state (process self c line).1 = SPEED_ANOMALY ->
  exists msg last p speed,
    line = Parsed msg /\ coords msg = Some p
    /\ last_position self = Some last
    /\ (process self c line).1 = (SPEED_ANOMALY, Speed speed, false)
    /\ SPOOFING_SPEED_THRESHOLD < speed
    /\ DISTANCE_JUMP_THRESHOLD < geodesic last p
    /\ stabilized self = true
    /\ spoofing_phase self = false
    /\ spoofing_phase (process self c line).2 = true.
Proof.
  intros H.
  destruct (process_phase self c line)
    as (msg & last & p & t & dt & speed & Hline & _ & Hc & Hl & _ & _ & Hp).
  { unfold early_return. rewrite H. reflexivity. }
  exists msg, last, p, speed.
  destruct (process self c line) as [v self']. unfold state in H.
  simpl in *.
  unfold SpeedDetector.phases in Hp.
  repeat case_match; simplify_eq/=; try discriminate.
  leb_cases. unfold Qgtb in *.
  repeat match goal with
  | E : Qltb _ _ = true |- _ => apply Qltb_lt in E
  end.
  repeat split; auto.
Qed.

Lemma count_anomaly_run (self : detector)
    (inputs : list (clock * nmea_line)) :
  (count_status SPEED_ANOMALY (run self inputs).1
   <= if spoofing_phase self then 0 else 1)%nat.
Proof.
  revert self. induction inputs as [|[c line] rest IH]; intros self.
  - simpl. unfold count_status. simpl. destruct (spoofing_phase self); lia.
  - simpl.
    pose proof (process_anomaly self c line) as Ha.
    destruct (process_flags self c line) as (_ & Hph & _).
    destruct (SpeedDetector.process geodesic self c line) as [v self1].
    specialize (IH self1).
    destruct (SpeedDetector.run geodesic self1 rest) as [vs self2].
    simpl in *. unfold count_status in *.
    destruct (decide (state v = SPEED_ANOMALY)) as [E|E].
    + rewrite filter_cons_True by exact E.
      destruct (Ha E) as (? & ? & ? & ? & _ & _ & _ & _ & _ & _ & _ & Hf & Ht).
      rewrite Hf. rewrite Ht in IH. simpl in *. lia.
    + rewrite filter_cons_False by exact E.
      destruct (spoofing_phase self); [rewrite Hph in IH by reflexivity|];
        [exact IH|destruct (spoofing_phase self1); lia].
Qed.

Lemma run_confirmed_flag (self : detector)
    (inputs : list (clock * nmea_line)) :
  consistent self ->
  (0 < count_status SPOOFING_CONFIRMED (run self inputs).1)%nat ->
  spoof_confirmed (run self inputs).2 = true.
Proof.
  revert self. induction inputs as [|[c line] rest IH]; intros self Hc.
  - simpl. unfold count_status. simpl. lia.
  - simpl.
    pose proof (process_confirms geodesic self c line) as Hconf.
    destruct (process_consistent geodesic self c line Hc) as [Hc1 _].
    destruct (SpeedDetector.process geodesic self c line) as [v self1] eqn:Hp.
    specialize (IH self1 Hc1).
    pose proof (run_flags self1 rest) as (_ & _ & Hkeep & _).
    destruct (SpeedDetector.run geodesic self1 rest) as [vs self2].
    simpl in *. unfold count_status in *.
    destruct (decide (state v = SPOOFING_CONFIRMED)) as [E|E].
    + intros _. apply Hkeep. apply Hconf. exact E.
    + rewrite filter_cons_False by exact E. exact IH.
Qed.

(** *** Further properties of [SpeedDetector.process] *)

(** X1.  A call that reports [ERROR] has changed no field of the detector
    and does not flag a detection; a line that does not parse is such a
    call. *)
Theorem error_changes_nothing (self : detector) (c : clock)
    (line : nmea_line) :
  state (process self c line).1 = ERROR ->
  (process self c line).2 = self
  /\ detected (process self c line).1 = false
  /\ (exists e, (process self c line).1 = (ERROR, Message e, false))
  /\ process self c Unparsed = ((ERROR, Message ParseError, false), self).
Proof.
  intros H. split; [|split; [|split]]; [| | |reflexivity];
  destruct (process_cases geodesic self c line)
    as [[e He]|[He|[(last & speed & dist & Hl & Hp)|(p & t & He)]]];
    try (rewrite He in *; first [reflexivity|discriminate|eauto]);
    destruct (process self c line) as [v self']; unfold state in H;
    phases_cases; discriminate.
Qed.


(** X3.  When the stored reference time was built from a sentence's time of
    day and a later sentence of non-zero quality has no usable time, the
    call reports [ERROR] (the wall-clock reading cannot be subtracted from
    the stored datetime) and the detector is left as it was. *)
Theorem missing_time_after_datetime_is_error (self : detector) (c : clock)
    (msg : gga) (p : position) (l : Q) :
  last_time self = Some (Datetime l) ->
  gps_qual msg <> 0%Z -> coords msg = Some p -> timestamp msg = None ->
  process self c (Parsed msg) = ((ERROR, Message TypeError, false), self).
Proof.
  intros Hl Hq Hc Ht.
  unfold process, SpeedDetector.process, process_body. simpl.
  destruct (Z.eqb_spec (gps_qual msg) 0) as [|_]; [contradiction|].
  rewrite Hc, Ht, Hl. reflexivity.
Qed.

(** X4.  Over any sequence of calls none of the three flags is ever cleared
    and neither counter ever decreases. *)
Theorem flags_are_never_cleared (self : detector)
    (inputs : list (clock * nmea_line)) :
  (stabilized self = true -> stabilized (run self inputs).2 = true)
  /\ (spoofing_phase self = true -> spoofing_phase (run self inputs).2 = true)
  /\ (spoof_confirmed self = true ->
      spoof_confirmed (run self inputs).2 = true)
  /\ (stabilization_counter self
      <= stabilization_counter (run self inputs).2)%nat
  /\ (spoofed_stabilization_counter self
      <= spoofed_stabilization_counter (run self inputs).2)%nat.
Proof. apply run_flags. Qed.

(** X5.  After any sequence of calls on a new detector: each counter is at
    most [STABILIZATION_COUNT], [stabilized] holds exactly when the first
    counter has reached it and [spoof_confirmed] exactly when the second
    has; the suspect phase is only entered once stabilised; and the reference
    position and time are stored together. *)
Theorem counters_and_flags_agree (inputs : list (clock * nmea_line)) :
  let self := (run __init__ inputs).2 in
  (stabilization_counter self <= STABILIZATION_COUNT)%nat
  /\ (stabilized self = true
      <-> stabilization_counter self = STABILIZATION_COUNT)
  /\ (spoofed_stabilization_counter self <= STABILIZATION_COUNT)%nat
  /\ (spoof_confirmed self = true
      <-> spoofed_stabilization_counter self = STABILIZATION_COUNT)
  /\ (spoofing_phase self = true -> stabilized self = true)
  /\ (last_position self = None <-> last_time self = None).
Proof.
  intros self.
  assert (Hc : coherent self).
  { apply reachable_coherent. apply run_reachable. constructor. }
  destruct Hc as (H1 & H2 & H3 & H4 & H5 & _ & _ & H8).
  split; [exact H1|]. split; [rewrite H2; lia|].
  split; [exact H3|]. split; [rewrite H4; lia|].
  split; [exact H5|exact H8].
Qed.

(** X6.  [SPEED_ANOMALY] is returned only by a stabilised detector not yet
    in the suspect phase, for a fix whose speed exceeds
    [SPOOFING_SPEED_THRESHOLD] and whose distance from the reference exceeds
    [DISTANCE_JUMP_THRESHOLD]; the call enters the suspect phase, and over
    any sequence of calls the verdict is returned at most once. *)
Theorem speed_anomaly_needs_speed_and_distance (self : detector) (c : clock)
    (line : nmea_line) (inputs : list (clock * nmea_line)) :
  state (process self c line).1 = SPEED_ANOMALY ->
  (exists msg last p speed,
      line = Parsed msg /\ coords msg = Some p
      /\ last_position self = Some last
      /\ (process self c line).1 = (SPEED_ANOMALY, Speed speed, false)
      /\ SPOOFING_SPEED_THRESHOLD < speed
      /\ DISTANCE_JUMP_THRESHOLD < geodesic last p
      /\ stabilized self = true
      /\ spoofing_phase self = false
      /\ spoofing_phase (process self c line).2 = true)
  /\ (count_status SPEED_ANOMALY (run __init__ inputs).1 <= 1)%nat
  /\ count_status SPEED_ANOMALY (run (process self c line).2 inputs).1
     = 0%nat.
Proof.
  intros H. pose proof (process_anomaly self c line H) as Ha.
  split; [exact Ha|]. split.
  - exact (count_anomaly_run __init__ inputs).
  - destruct Ha as (? & ? & ? & ? & _ & _ & _ & _ & _ & _ & _ & _ & Ht).
    pose proof (count_anomaly_run (process self c line).2 inputs) as Hn.
    rewrite Ht in Hn. lia.
Qed.

(** X7.  A new detector needs at least ten calls to confirm a spoofing: the
    confirmed flag is not set, and [SPOOFING_CONFIRMED] is not returned,
    within the first nine. *)
Theorem no_confirmation_before_ten_calls
    (inputs : list (clock * nmea_line)) :
  spoof_confirmed (run __init__ inputs).2 = true
  \/ (0 < count_status SPOOFING_CONFIRMED (run __init__ inputs).1)%nat ->
  (10 <= length inputs)%nat.
Proof.
  intros H.
  assert (Hflag : spoof_confirmed (run __init__ inputs).2 = true).
  { destruct H as [H|H]; [exact H|].
    apply run_confirmed_flag; [|exact H]. intros E. discriminate. }
  assert (Hc : coherent (run __init__ inputs).2).
  { apply reachable_coherent. apply run_reachable. constructor. }
  pose proof (run_progress __init__ inputs) as Hp.
  destruct Hc as (_ & H2 & _ & H4 & H5 & H6 & H7 & _).
  unfold STABILIZATION_COUNT in *.
  apply H4 in Hflag.
  assert (Hph : spoofing_phase (run __init__ inputs).2 = true)
    by (apply H6; lia).
  pose proof (proj1 H2 (H5 Hph)) as Hst.
  assert (Hpos : last_position (run __init__ inputs).2 <> None)
    by (apply H7; lia).
  unfold progress in Hp. rewrite Hph in Hp.
  destruct (last_position (run __init__ inputs).2); [|contradiction].
  simpl in Hp. lia.
Qed.


End Calls.

Lemma error_changes_nothing_witness :
  let r := process flat_metres confirmed_detector (today 30)
             (Parsed (mk_gga 1 None (Some 30))) in
  state r.1 = ERROR /\ r.2 = confirmed_detector.
Proof.
  destruct (error_changes_nothing flat_metres confirmed_detector (today 30)
              (Parsed (mk_gga 1 None (Some 30)))) as (H1 & _).
  - reflexivity.
  - split; [reflexivity | exact H1].
Defined.


Lemma missing_time_after_datetime_is_error_witness :
  process flat_metres confirmed_detector (today 30)
    (Parsed (mk_gga 1 (Some (48, 2)) None))
  = ((ERROR, Message TypeError, false), confirmed_detector).
Proof.
  apply (missing_time_after_datetime_is_error flat_metres confirmed_detector
           (today 30) (mk_gga 1 (Some (48, 2)) None) (48, 2) 0).
  - vm_compute. reflexivity.
  - discriminate.
  - reflexivity.
  - reflexivity.
Defined.

Lemma flags_are_never_cleared_witness :
  stabilized
    (run flat_metres confirmed_detector [(today 30, no_fix_at 30)]).2 = true.
Proof.
  destruct (flags_are_never_cleared flat_metres confirmed_detector
              [(today 30, no_fix_at 30)]) as (H1 & _).
  apply H1. reflexivity.
Defined.

Lemma speed_anomaly_needs_speed_and_distance_witness :
  let self := (run flat_metres __init__ (take 5 jump_and_hold)).2 in
  state (process flat_metres self (today 5) (held 5)).1 = SPEED_ANOMALY
  /\ count_status SPEED_ANOMALY
       (run flat_metres (process flat_metres self (today 5) (held 5)).2
          (drop 6 jump_and_hold)).1 = 0%nat.
Proof.
  destruct (speed_anomaly_needs_speed_and_distance flat_metres
              (run flat_metres __init__ (take 5 jump_and_hold)).2
              (today 5) (held 5) (drop 6 jump_and_hold))
    as (_ & _ & H3).
  - vm_compute. reflexivity.
  - split; [vm_compute; reflexivity | exact H3].
Defined.

Lemma no_confirmation_before_ten_calls_witness :
  spoof_confirmed
    (run flat_metres __init__ (jump_and_hold ++ [(today 23, held 23)])).2
  = true
  /\ (10 <= length (jump_and_hold ++ [(today 23, held 23)]))%nat.
Proof.
  split; [reflexivity|].
  apply (no_confirmation_before_ten_calls flat_metres).
  left. reflexivity.
Defined.


End SpeedMore.

(** ** More on the SNR detector *)

Module SNRMore.

Import SNRDetector SNRVocabulary SNRMeasures SNRScenario SNRFacts.

(** *** The history windows (lines 35-44) *)

Lemma append_length (window : list Q) (x : Q) :
  length (append window x) = Nat.min (S (length window)) HISTORY_LENGTH.
Proof.
  unfold append. rewrite length_drop, length_app. simpl.
  unfold HISTORY_LENGTH. lia.
Qed.

Lemma append_last (window : list Q) (x : Q) :
  last (append window x) = Some x.
Proof.
  unfold append.
  assert (H : (length (window ++ [x]) - HISTORY_LENGTH
               <= length window)%nat).
  { rewrite length_app. simpl. unfold HISTORY_LENGTH. lia. }
  rewrite drop_app_le by exact H. apply last_snoc.
Qed.

Lemma update_snr_history_lookup (history : gmap string (list Q))
    (data : gmap string Q) (prn : string) :
  update_snr_history history data !! prn
  = match data !! prn with
    | Some x => Some (append (default [] (history !! prn)) x)
    | None => history !! prn
    end.
Proof.
  unfold update_snr_history. revert prn.
  apply (map_fold_weak_ind
           (fun (h : gmap string (list Q)) (d : gmap string Q) =>
              forall prn,
                h !! prn
                = match d !! prn with
                  | Some x => Some (append (default [] (history !! prn)) x)
                  | None => history !! prn
                  end)).
  - intros prn. rewrite lookup_empty. reflexivity.
  - intros i x m r Hi IH prn.
    destruct (decide (i = prn)) as [->|Hne].
    + rewrite !lookup_insert_eq. rewrite (IH prn), Hi. reflexivity.
    + rewrite !lookup_insert_ne by exact Hne. apply IH.
Qed.

(** *** Reading a sentence *)

Lemma read_slots_sound (svs : list sv) (all filtered : gmap string Q) :
  (forall prn v, filtered !! prn = Some v -> SNR_MIN_THRESHOLD <= v) ->
  dom filtered ⊆ dom all ->
  (forall prn v, (read_slots svs all filtered).2 !! prn = Some v ->
                 SNR_MIN_THRESHOLD <= v)
  /\ dom (read_slots svs all filtered).2 ⊆ dom (read_slots svs all filtered).1
  /\ dom all ⊆ dom (read_slots svs all filtered).1.
Proof.
  revert all filtered. induction svs as [|s rest IH]; intros all filtered Hv Hd.
  - simpl. auto.
  - simpl. destruct (String.eqb (sv_prn_num s) ""); [apply IH; assumption|].
    destruct (snr s) as [|v|]; [apply IH; assumption| |simpl; auto].
    assert (Hall : dom all ⊆ dom (<[sv_prn_num s:=v]> all)).
    { rewrite dom_insert. apply union_subseteq_r. }
    destruct (Qgeb v SNR_MIN_THRESHOLD) eqn:E.
    + destruct (IH (<[sv_prn_num s:=v]> all) (<[sv_prn_num s:=v]> filtered))
        as (H1 & H2 & H3).
      * intros prn w. rewrite lookup_insert. case_decide.
        -- intros [= <-]. apply Qle_bool_iff. exact E.
        -- apply Hv.
      * rewrite !dom_insert. apply union_mono_l. exact Hd.
      * split; [exact H1|]. split; [exact H2|].
        etransitivity; eassumption.
    + destruct (IH (<[sv_prn_num s:=v]> all) filtered) as (H1 & H2 & H3).
      * exact Hv.
      * etransitivity; eassumption.
      * split; [exact H1|]. split; [exact H2|].
        etransitivity; eassumption.
Qed.

Lemma read_line_sound (line : nmea_line) (all filtered : gmap string Q) :
  (forall prn v, filtered !! prn = Some v -> SNR_MIN_THRESHOLD <= v) ->
  dom filtered ⊆ dom all ->
  (forall prn v, (read_line line all filtered).2 !! prn = Some v ->
                 SNR_MIN_THRESHOLD <= v)
  /\ dom (read_line line all filtered).2 ⊆ dom (read_line line all filtered).1
  /\ dom all ⊆ dom (read_line line all filtered).1.
Proof.
  intros Hv Hd. destruct line; simpl; auto. apply read_slots_sound; assumption.
Qed.

(** *** One call, by the gate it stops at *)

Lemma process_gates (self : detector) (now : Q) (line : nmea_line) :
  let r := process_gsv_for_snr self now line in
  let read := read_line line (all_sats self) (filtered_sats self) in
  (analysed r.1 = false
   /\ r.1.1.2 = [] /\ r.2 = set_sats self read.1 read.2
   /\ (state r.1 = STABILIZING
       <-> now - stabilization_start_time self < STABILIZATION_DURATION)
   /\ (state r.1 = INSUFFICIENT_SATS -> (size read.2 < MIN_SAT_FOR_ANALYSIS)%nat))
  \/ (analysed r.1 = true
      /\ ~ now - stabilization_start_time self < STABILIZATION_DURATION
      /\ (MIN_SAT_FOR_ANALYSIS <= size read.2)%nat
      /\ all_sats r.2 = read.1 /\ filtered_sats r.2 = read.2
      /\ previous_avg_sats r.2 = read.2
      /\ snr_history r.2 = update_snr_history (snr_history self) read.1
      /\ stabilization_start_time r.2 = stabilization_start_time self).
Proof.
  unfold process_gsv_for_snr.
  destruct (read_line line (all_sats self) (filtered_sats self))
    as [all filtered] eqn:Hread.
  cbn [fst snd set_sats stabilization_start_time filtered_sats].
  destruct (Qltb _ STABILIZATION_DURATION) eqn:Hw.
  { left. apply Qltb_lt in Hw. simpl. repeat split; auto; discriminate. }
  apply Qltb_nlt in Hw.
  destruct (_ <? MIN_SAT_FOR_ANALYSIS)%nat eqn:Hn.
  { left. apply Nat.ltb_lt in Hn. simpl.
    repeat split; auto; try discriminate. intros Hlt. contradiction. }
  apply Nat.ltb_ge in Hn. right.
  repeat case_match; simpl; repeat split; auto.
Qed.

Lemma process_sound (self : detector) (now : Q) (line : nmea_line) :
  sound self -> sound (process_gsv_for_snr self now line).2.
Proof.
  intros (Hf & Hfa & Hp & Hps & Hh & Hha).
  destruct (read_line_sound line (all_sats self) (filtered_sats self) Hf Hfa)
    as (R1 & R2 & R3).
  destruct (process_gates self now line)
    as [(_ & _ & Hr & _)|(_ & _ & Hn & Ha & Hfl & Hpr & Hhi & _)].
  - rewrite Hr. unfold sound. simpl.
    split; [exact R1|]. split; [exact R2|]. split; [exact Hp|].
    split; [exact Hps|]. split; [exact Hh|].
    etransitivity; eassumption.
  - unfold sound. rewrite Ha, Hfl, Hpr, Hhi.
    split; [exact R1|]. split; [exact R2|]. split; [exact R1|].
    split; [right; exact Hn|]. split.
    + intros prn w. rewrite update_snr_history_lookup.
      destruct (_ !! prn) as [x|] eqn:Hx.
      * intros [= <-]. split.
        -- intros E. pose proof (append_last (default [] (snr_history self !! prn)) x) as Hl.
           rewrite E in Hl. discriminate.
        -- rewrite append_length. lia.
      * apply Hh.
    + intros prn. rewrite !elem_of_dom, update_snr_history_lookup.
      destruct (_ !! prn) as [x|] eqn:Hx; [eauto|].
      intros Hin. exfalso.
      assert (Hd : prn ∈ dom (read_line line (all_sats self)
                                (filtered_sats self)).1)
        by (apply R3, Hha, elem_of_dom; exact Hin).
      apply elem_of_dom in Hd. rewrite Hx in Hd. destruct Hd; discriminate.
Qed.

Lemma reachable_sound (self : detector) : reachable self -> sound self.
Proof.
  induction 1 as [now|self now line _ IH].
  - unfold sound. simpl.
    split; [intros prn v; rewrite lookup_empty; discriminate|].
    split; [reflexivity|].
    split; [intros prn v; rewrite lookup_empty; discriminate|].
    split; [left; reflexivity|].
    split; [intros prn v; rewrite lookup_empty; discriminate|reflexivity].
  - apply process_sound. exact IH.
Qed.

(** *** The comparison *)

Lemma snr_jump_small (curr prev : Q) :
  Qabs (curr - prev) < SNR_JUMP_THRESHOLD -> snr_jump curr prev = None.
Proof.
  intros H. unfold snr_jump, Qgeb.
  destruct (Qle_bool _ _) eqn:E; [|reflexivity].
  apply Qle_bool_iff in E. exfalso.
  apply (Qlt_irrefl (Qabs (curr - prev))).
  eapply Qlt_le_trans; [exact H|].
  eapply Qle_trans; [|exact E]. apply Q.le_max_l.
Qed.

Lemma snr_jump_large (curr prev : Q) :
  SNR_JUMP_THRESHOLD <= Qabs (curr - prev) ->
  (1 # 4) * prev <= Qabs (curr - prev) ->
  snr_jump curr prev = Some (Qabs (curr - prev)).
Proof.
  intros H1 H2. unfold snr_jump, Qgeb.
  destruct (Qle_bool _ _) eqn:E; [reflexivity|].
  assert (Hle : Qmax SNR_JUMP_THRESHOLD ((1 # 4) * prev)
                <= Qabs (curr - prev)) by (apply Q.max_lub; assumption).
  apply Qle_bool_iff in Hle. congruence.
Qed.

Lemma snr_jump_same (x : Q) : snr_jump x x = None.
Proof.
  apply snr_jump_small.
  assert (H : Qabs (x - x) == 0).
  { assert (E : x - x == 0) by ring. rewrite E. reflexivity. }
  rewrite H. reflexivity.
Qed.

Lemma compare_sat_data_quiet (prev curr : gmap string Q) :
  (size (dom curr ∖ dom prev) < NEW_PRNS_THRESHOLD)%nat ->
  (size (dom prev ∖ dom curr) < DISAPPEARED_PRNS_THRESHOLD)%nat ->
  (forall prn c p, curr !! prn = Some c -> prev !! prn = Some p ->
                   snr_jump c p = None) ->
  compare_sat_data prev curr = ([], false).
Proof.
  unfold NEW_PRNS_THRESHOLD, DISAPPEARED_PRNS_THRESHOLD.
  intros Hnew Hlost Hjump. unfold compare_sat_data.
  assert (E : intersection_with snr_jump curr prev = ∅).
  { apply map_empty. intros prn. rewrite lookup_intersection_with.
    destruct (curr !! prn) as [c|] eqn:Hc, (prev !! prn) as [p|] eqn:Hp;
      try reflexivity.
    simpl. rewrite (Hjump prn c p Hc Hp). reflexivity. }
  rewrite E, map_to_list_empty.
  assert (H1 : (NEW_PRNS_THRESHOLD <=? size (dom curr ∖ dom prev))%nat = false)
    by (apply Nat.leb_gt; unfold NEW_PRNS_THRESHOLD; lia).
  assert (H2 : (DISAPPEARED_PRNS_THRESHOLD <=? size (dom prev ∖ dom curr))%nat
               = false)
    by (apply Nat.leb_gt; unfold DISAPPEARED_PRNS_THRESHOLD; lia).
  assert (H3 : (INSTANT_SHOCK_THRESHOLD <=? size (dom curr ∖ dom prev))%nat
               = false)
    by (apply Nat.leb_gt; unfold INSTANT_SHOCK_THRESHOLD; lia).
  rewrite H1, H2, H3. reflexivity.
Qed.

Lemma compare_sat_data_same (m : gmap string Q) :
  compare_sat_data m m = ([], false).
Proof.
  assert (E : dom m ∖ dom m = (∅ : gset string)).
  { apply leibniz_equiv, set_equiv. intros prn.
    rewrite elem_of_difference. split; [tauto|].
    intros Hin. exfalso. exact (not_elem_of_empty prn Hin). }
  apply compare_sat_data_quiet.
  - rewrite E, size_empty. unfold NEW_PRNS_THRESHOLD. lia.
  - rewrite E, size_empty. unfold DISAPPEARED_PRNS_THRESHOLD. lia.
  - intros prn c p Hc Hp. rewrite Hc in Hp. injection Hp as <-.
    apply snr_jump_same.
Qed.

(** *** Splitting a sentence *)

Lemma read_slots_app (l1 l2 : list sv) (all filtered : gmap string Q) :
  Forall (fun s => stops_reading s = false) l1 ->
  read_slots (l1 ++ l2) all filtered
  = read_slots l2 (read_slots l1 all filtered).1 (read_slots l1 all filtered).2.
Proof.
  intros H. revert all filtered.
  induction H as [|s l1 Hs _ IH]; intros all filtered; [reflexivity|].
  simpl. unfold stops_reading in Hs.
  destruct (String.eqb (sv_prn_num s) ""); [apply IH|].
  destruct (snr s); [apply IH|apply IH|discriminate].
Qed.

Lemma read_slots_silent (svs : list sv) (all filtered : gmap string Q)
    (prn : string) :
  Forall (fun s => silent_on prn s = true) svs ->
  (read_slots svs all filtered).1 !! prn = all !! prn
  /\ (read_slots svs all filtered).2 !! prn = filtered !! prn.
Proof.
  intros H. revert all filtered.
  induction H as [|s svs Hs _ IH]; intros all filtered; [auto|].
  simpl. unfold silent_on in Hs.
  destruct (String.eqb (sv_prn_num s) "") eqn:E0; [apply IH|].
  destruct (String.eqb_spec (sv_prn_num s) prn) as [E|E].
  - destruct (snr s); [apply IH|discriminate..].
  - destruct (snr s) as [|v|]; [apply IH| |auto].
    destruct (IH (<[sv_prn_num s:=v]> all)
                 (if Qgeb v SNR_MIN_THRESHOLD
                  then <[sv_prn_num s:=v]> filtered else filtered))
      as [H1 H2].
    rewrite H1, H2. rewrite lookup_insert_ne by exact E.
    split; [reflexivity|].
    destruct (Qgeb v SNR_MIN_THRESHOLD); [|reflexivity].
    apply lookup_insert_ne. exact E.
Qed.

(** *** Further properties of the SNR detector *)

(** X9.  [update_snr_history] gives every PRN of [data] its old window with
    the new sample appended as last element, the oldest sample dropped once
    the window would exceed [HISTORY_LENGTH], and a one-sample window when
    the PRN had none; the windows of the other PRNs are unchanged. *)
Theorem history_window_update (history : gmap string (list Q))
    (data : gmap string Q) (prn : string) :
  match data !! prn with
  | Some x =>
      exists w,
        update_snr_history history data !! prn = Some w
        /\ last w = Some x
        /\ length w
           = Nat.min (S (length (default [] (history !! prn)))) HISTORY_LENGTH
        /\ w `suffix_of` (default [] (history !! prn) ++ [x])
  | None => update_snr_history history data !! prn = history !! prn
  end.
Proof.
  rewrite update_snr_history_lookup.
  destruct (data !! prn) as [x|]; [|reflexivity].
  eexists. split; [reflexivity|].
  split; [apply append_last|]. split; [apply append_length|].
  unfold append. apply suffix_drop.
Qed.

(** X10.  After any sequence of calls on a new detector every history window
    holds between one and [HISTORY_LENGTH] samples, and only PRNs that were
    seen have a window. *)
Theorem history_windows_are_bounded (start : Q)
    (inputs : list (Q * nmea_line)) (prn : string) (w : list Q) :
  let self := (run (__init__ start) inputs).2 in
  snr_history self !! prn = Some w ->
  (1 <= length w <= HISTORY_LENGTH)%nat /\ prn ∈ dom (all_sats self).
Proof.
  intros self H.
  assert (Hs : sound self).
  { apply reachable_sound. apply snr_run_reachable. constructor. }
  destruct Hs as (_ & _ & _ & _ & Hh & Hd).
  destruct (Hh prn w H) as [Hne Hlen].
  split.
  - split; [|exact Hlen]. destruct w; [contradiction|simpl; lia].
  - apply Hd. apply elem_of_dom. eauto.
Qed.

(** X11.  After any sequence of calls on a new detector every SNR in the
    filtered map and in the comparison baseline is at or above
    [SNR_MIN_THRESHOLD], every filtered PRN is also in [all_sats], and the
    baseline is either still empty or holds at least
    [MIN_SAT_FOR_ANALYSIS] satellites. *)
Theorem filtered_values_are_reliable (start : Q)
    (inputs : list (Q * nmea_line)) (prn : string) (v : Q) :
  let self := (run (__init__ start) inputs).2 in
  (filtered_sats self !! prn = Some v \/ previous_avg_sats self !! prn = Some v
   -> SNR_MIN_THRESHOLD <= v)
  /\ dom (filtered_sats self) ⊆ dom (all_sats self)
  /\ (previous_avg_sats self = ∅
      \/ (MIN_SAT_FOR_ANALYSIS <= size (previous_avg_sats self))%nat).
Proof.
  intros self.
  assert (Hs : sound self).
  { apply reachable_sound. apply snr_run_reachable. constructor. }
  destruct Hs as (H1 & H2 & H3 & H4 & _).
  split; [|split; assumption].
  intros [H|H]; [exact (H1 prn v H)|exact (H3 prn v H)].
Qed.

(** X12.  When fewer than [NEW_PRNS_THRESHOLD] PRNs are new, fewer than
    [DISAPPEARED_PRNS_THRESHOLD] are gone and every PRN present in both maps
    has moved by less than [SNR_JUMP_THRESHOLD], [compare_sat_data] reports
    no cause and no shock; in particular a map compared with itself. *)
Theorem quiet_comparison_has_no_cause (prev curr : gmap string Q) :
  (size (dom curr ∖ dom prev) < NEW_PRNS_THRESHOLD)%nat ->
  (size (dom prev ∖ dom curr) < DISAPPEARED_PRNS_THRESHOLD)%nat ->
  (forall prn c p, curr !! prn = Some c -> prev !! prn = Some p ->
                   Qabs (c - p) < SNR_JUMP_THRESHOLD) ->
  compare_sat_data prev curr = ([], false)
  /\ compare_sat_data curr curr = ([], false).
Proof.
  intros Hnew Hlost Hjump. split; [|apply compare_sat_data_same].
  apply compare_sat_data_quiet; try assumption.
  intros prn c p Hc Hp. apply snr_jump_small. eauto.
Qed.

(** X13.  [compare_sat_data] reports the new PRNs when there are at least
    [NEW_PRNS_THRESHOLD] of them, the lost PRNs when there are at least
    [DISAPPEARED_PRNS_THRESHOLD], and a PRN present in both maps whose SNR
    moved by at least [SNR_JUMP_THRESHOLD] and at least a quarter of its
    previous value, with the size of the move. *)
Theorem anomalies_are_reported (prev curr : gmap string Q) (prn : string)
    (c p : Q) :
  ((NEW_PRNS_THRESHOLD <= size (dom curr ∖ dom prev))%nat ->
   NewSatellites (dom curr ∖ dom prev) ∈ (compare_sat_data prev curr).1)
  /\ ((DISAPPEARED_PRNS_THRESHOLD <= size (dom prev ∖ dom curr))%nat ->
      LostSatellites (dom prev ∖ dom curr) ∈ (compare_sat_data prev curr).1)
  /\ (curr !! prn = Some c -> prev !! prn = Some p ->
      SNR_JUMP_THRESHOLD <= Qabs (c - p) -> (1 # 4) * p <= Qabs (c - p) ->
      exists jumps,
        SnrJumps jumps ∈ (compare_sat_data prev curr).1
        /\ (prn, Qabs (c - p)) ∈ jumps).
Proof.
  unfold compare_sat_data. cbn [fst]. split; [|split].
  - intros H. apply Nat.leb_le in H. rewrite H.
    rewrite elem_of_app. left. left.
  - intros H. apply Nat.leb_le in H. rewrite H.
    rewrite !elem_of_app. right. left. left.
  - intros Hc Hp H1 H2.
    assert (Hin : (prn, Qabs (c - p))
                  ∈ map_to_list (intersection_with snr_jump curr prev)).
    { apply elem_of_map_to_list. apply lookup_intersection_with_Some.
      exists c, p. split; [exact Hc|]. split; [exact Hp|].
      apply snr_jump_large; assumption. }
    destruct (map_to_list (intersection_with snr_jump curr prev))
      as [|j jumps] eqn:E.
    + inversion Hin.
    + exists (j :: jumps). split; [|exact Hin].
      rewrite !elem_of_app. right. right. left. left.
Qed.

(** X14.  Which fields a call writes can be read off its verdict:
    [STABILIZING] and [INSUFFICIENT_SATS] carry no cause and leave the
    baseline, the history and the anomaly counter alone; [NORMAL] and
    [SPOOFING_DETECTED] are only returned with at least
    [MIN_SAT_FOR_ANALYSIS] filtered satellites, and then the history has
    taken the samples of [all_sats] and the baseline is the filtered map,
    alert or not. *)
Theorem verdict_tells_what_was_written (self : detector) (now : Q)
    (line : nmea_line) :
  let r := process_gsv_for_snr self now line in
  (analysed r.1 = false ->
   causes_of r.1 = []
   /\ previous_avg_sats r.2 = previous_avg_sats self
   /\ snr_history r.2 = snr_history self
   /\ anomaly_counter r.2 = anomaly_counter self)
  /\ (analysed r.1 = true ->
      (MIN_SAT_FOR_ANALYSIS <= size (filtered_sats r.2))%nat
      /\ previous_avg_sats r.2 = filtered_sats r.2
      /\ snr_history r.2
         = update_snr_history (snr_history self) (all_sats r.2)).
Proof.
  intros r. subst r.
  destruct (process_gates self now line)
    as [(Hn & Hc & Hr & _)|(Hy & _ & Hsz & Ha & Hf & Hp & Hh & _)].
  - split; [|rewrite Hn; discriminate].
    intros _. rewrite Hr. simpl. auto.
  - split; [rewrite Hy; discriminate|].
    intros _. rewrite Hf, Hp, Hh, Ha. auto.
Qed.

(** X15.  Once a detector has a comparison baseline it never again answers
    [INSUFFICIENT_SATS], whatever the later sentences say. *)
Theorem insufficient_only_before_baseline (self : detector) (now : Q)
    (line : nmea_line) :
  reachable self -> previous_avg_sats self <> ∅ ->
  state (process_gsv_for_snr self now line).1 <> INSUFFICIENT_SATS.
Proof.
  intros Hreach Hne Hst.
  destruct (reachable_sound self Hreach) as (_ & _ & _ & [He|Hsz] & _);
    [contradiction|].
  pose proof (reachable_baseline_within self Hreach) as Hw.
  unfold baseline_within in Hw.
  pose proof (read_line_dom line (all_sats self) (filtered_sats self)) as Hd.
  destruct (process_gates self now line)
    as [(_ & _ & _ & _ & Hi)|(Hy & _)].
  - specialize (Hi Hst).
    assert (Hle : (size (dom (previous_avg_sats self))
                   <= size (dom (read_line line (all_sats self)
                                   (filtered_sats self)).2))%nat).
    { apply subseteq_size. etransitivity; eassumption. }
    rewrite !size_dom in Hle. unfold MIN_SAT_FOR_ANALYSIS in *. lia.
  - unfold analysed in Hy. rewrite Hst in Hy. discriminate.
Qed.

(** X16.  After the warm-up, a call that finds the filtered map equal to the
    baseline, with at least [MIN_SAT_FOR_ANALYSIS] satellites, answers
    [NORMAL] without cause and resets the anomaly counter. *)
Theorem steady_constellation_is_normal (self : detector) (now : Q)
    (line : nmea_line) :
  ~ now - stabilization_start_time self < STABILIZATION_DURATION ->
  (read_line line (all_sats self) (filtered_sats self)).2
  = previous_avg_sats self ->
  (MIN_SAT_FOR_ANALYSIS <= size (previous_avg_sats self))%nat ->
  let r := process_gsv_for_snr self now line in
  r.1 = (NORMAL, [], false) /\ anomaly_counter r.2 = 0%nat
  /\ previous_avg_sats r.2 = previous_avg_sats self.
Proof.
  intros Hw Heq Hsz. unfold process_gsv_for_snr.
  destruct (read_line line (all_sats self) (filtered_sats self))
    as [all filtered] eqn:Hread.
  simpl in Heq. subst filtered.
  cbn [set_sats stabilization_start_time filtered_sats].
  rewrite (proj2 (Qltb_nlt _ _) Hw).
  assert (Hn : (size (previous_avg_sats self) <? MIN_SAT_FOR_ANALYSIS)%nat
               = false) by (apply Nat.ltb_ge; exact Hsz).
  rewrite Hn.
  cbn [set_snr_history previous_avg_sats filtered_sats].
  assert (Hne : previous_avg_sats self <> ∅).
  { intros E. rewrite E, map_size_empty in Hsz.
    unfold MIN_SAT_FOR_ANALYSIS in Hsz. lia. }
  rewrite (bool_decide_eq_true_2 _ Hne).
  rewrite compare_sat_data_same. simpl. auto.
Qed.

(** X17.  The detection flag is set exactly for [SPOOFING_DETECTED].  On a
    detector reached from a new one this verdict is only returned for a call
    whose comparison found a cause and that follows a comparison which
    found one too: the anomaly counter was at least 1 and is raised by
    one. *)
Theorem detection_needs_two_anomalies (self : detector) (now : Q)
    (line : nmea_line) :
  reachable self ->
  let r := process_gsv_for_snr self now line in
  (detected r.1 = true <-> state r.1 = SPOOFING_DETECTED)
  /\ (state r.1 = SPOOFING_DETECTED ->
      (1 <= anomaly_counter self)%nat
      /\ anomaly_counter r.2 = S (anomaly_counter self)
      /\ causes_of r.1 <> []
      /\ previous_avg_sats self <> ∅).
Proof.
  intros Hreach r.
  pose proof (process_compares_within self now line Hreach) as Hw.
  destruct (process_shape self now line) as (_ & Hf & _). rewrite Hf in Hw.
  destruct (compare_sat_data_within _ _ Hw) as [Hnow _].
  subst r. revert Hnow. unfold process_gsv_for_snr.
  destruct (read_line line (all_sats self) (filtered_sats self))
    as [all filtered] eqn:Hread.
  cbn [fst snd]. intros Hnow.
  destruct (Qltb _ STABILIZATION_DURATION);
    [simpl; split; [split|]; discriminate|].
  destruct (_ <? MIN_SAT_FOR_ANALYSIS)%nat;
    [simpl; split; [split|]; discriminate|].
  destruct (bool_decide _) eqn:Hb;
    [|simpl; split; [split|]; discriminate].
  apply bool_decide_eq_true_1 in Hb.
  cbn [set_sats set_snr_history previous_avg_sats filtered_sats] in *.
  destruct (compare_sat_data (previous_avg_sats self) filtered)
    as [causes spoof_now] eqn:Hcmp.
  simpl in Hnow. subst spoof_now.
  cbn [set_anomaly_counter anomaly_counter].
  rewrite orb_false_r.
  destruct causes as [|cause causes].
  - unfold ANOMALY_CONFIRMATION_COUNT, detected, state. simpl.
    split; [split|]; intros H; discriminate H.
  - destruct (ANOMALY_CONFIRMATION_COUNT <=? _)%nat eqn:Hc;
      unfold detected, state; simpl;
      [|split; [split|]; intros H; discriminate H].
    apply Nat.leb_le in Hc. unfold ANOMALY_CONFIRMATION_COUNT in Hc.
    simpl in Hc.
    split; [split; reflexivity|]. intros _.
    split; [lia|]. split; [reflexivity|]. split; [discriminate|exact Hb].
Qed.

(** X18.  A named slot whose SNR text is not a number ends the reading of
    the sentence: the slots before it are taken, the slots after it are
    ignored. *)
Theorem malformed_snr_ends_sentence (good rest : list sv) (bad : sv)
    (all filtered : gmap string Q) :
  Forall (fun s => stops_reading s = false) good ->
  stops_reading bad = true ->
  read_slots (good ++ bad :: rest) all filtered
  = read_slots good all filtered.
Proof.
  intros Hgood Hbad. rewrite read_slots_app by exact Hgood.
  simpl. unfold stops_reading in Hbad.
  destruct (String.eqb (sv_prn_num bad) ""); [discriminate|].
  destruct (snr bad); try discriminate.
  destruct (read_slots good all filtered); reflexivity.
Qed.

(** X19.  After a sentence is read, [all_sats] maps a PRN to the SNR of the
    last slot that reports it; the filtered map takes that value when it is
    at or above the floor and keeps what the earlier slots left otherwise. *)
Theorem all_sats_holds_last_report (before after : list sv) (s : sv)
    (all filtered : gmap string Q) (v : Q) :
  Forall (fun s' => stops_reading s' = false) (before ++ s :: after) ->
  sv_prn_num s <> ""%string -> snr s = SnrNumber v ->
  Forall (fun s' => silent_on (sv_prn_num s) s' = true) after ->
  let r := read_slots (before ++ s :: after) all filtered in
  r.1 !! sv_prn_num s = Some v
  /\ r.2 !! sv_prn_num s
     = if Qgeb v SNR_MIN_THRESHOLD then Some v
       else (read_slots before all filtered).2 !! sv_prn_num s.
Proof.
  intros Hstop Hname Hsnr Hafter r. subst r.
  apply Forall_app in Hstop. destruct Hstop as [Hb _].
  rewrite read_slots_app by exact Hb.
  destruct (read_slots before all filtered) as [a f]. cbn [fst snd].
  simpl. destruct (String.eqb_spec (sv_prn_num s) "") as [E|_];
    [contradiction|].
  rewrite Hsnr.
  destruct (read_slots_silent after (<[sv_prn_num s:=v]> a)
              (if Qgeb v SNR_MIN_THRESHOLD
               then <[sv_prn_num s:=v]> f else f)
              (sv_prn_num s) Hafter) as [H1 H2].
  rewrite H1, H2, lookup_insert_eq. split; [reflexivity|].
  destruct (Qgeb v SNR_MIN_THRESHOLD); [apply lookup_insert_eq|reflexivity].
Qed.

(** X20.  After any sequence of calls on a new detector,
    [get_averaged_snr] gives an average for every PRN that has a history
    window: its filter on empty windows drops none. *)
Theorem averaged_snr_covers_history (start : Q)
    (inputs : list (Q * nmea_line)) :
  let self := (run (__init__ start) inputs).2 in
  dom (get_averaged_snr (snr_history self)) = dom (snr_history self).
Proof.
  intros self.
  assert (Hs : sound self).
  { apply reachable_sound. apply snr_run_reachable. constructor. }
  destruct Hs as (_ & _ & _ & _ & Hh & _).
  unfold get_averaged_snr. rewrite dom_fmap_L.
  apply leibniz_equiv, set_equiv. intros prn.
  rewrite !elem_of_dom. split.
  - intros [w Hw]. apply map_lookup_filter_Some in Hw. destruct Hw. eauto.
  - intros [w Hw]. exists w. apply map_lookup_filter_Some.
    split; [exact Hw|]. simpl. apply (Hh prn w Hw).
Qed.

Lemma history_windows_are_bounded_witness :
  snr_history primed !! "01"%string = Some [30]
  /\ (1 <= length [30] <= HISTORY_LENGTH)%nat.
Proof.
  assert (H : snr_history primed !! "01"%string = Some [30])
    by (vm_compute; reflexivity).
  split; [exact H|].
  apply (history_windows_are_bounded 0
           [(10, first_four); (11, fifth); (60, NotGSV)] "01"%string [30] H).
Defined.

Lemma filtered_values_are_reliable_witness :
  filtered_sats primed !! "05"%string = Some 30 /\ SNR_MIN_THRESHOLD <= 30.
Proof.
  assert (H : filtered_sats primed !! "05"%string = Some 30)
    by (vm_compute; reflexivity).
  split; [exact H|].
  apply (filtered_values_are_reliable 0
           [(10, first_four); (11, fifth); (60, NotGSV)] "05"%string 30).
  left. exact H.
Defined.

Lemma quiet_comparison_has_no_cause_witness :
  compare_sat_data {[ "01"%string := 30 ]} {[ "01"%string := 34 ]}
  = ([], false).
Proof.
  apply (quiet_comparison_has_no_cause
           {[ "01"%string := 30 ]} {[ "01"%string := 34 ]}).
  - vm_compute. lia.
  - vm_compute. lia.
  - intros prn c p Hc Hp.
    apply lookup_singleton_Some in Hc. destruct Hc as [_ <-].
    apply lookup_singleton_Some in Hp. destruct Hp as [_ <-].
    reflexivity.
Defined.

Lemma anomalies_are_reported_witness :
  exists jumps,
    SnrJumps jumps
    ∈ (compare_sat_data {[ "01"%string := 30 ]} {[ "01"%string := 40 ]}).1
    /\ ("01"%string, Qabs (40 - 30)) ∈ jumps.
Proof.
  destruct (anomalies_are_reported
              {[ "01"%string := 30 ]} {[ "01"%string := 40 ]}
              "01"%string 40 30) as (_ & _ & H).
  apply H.
  - reflexivity.
  - reflexivity.
  - vm_compute. discriminate.
  - vm_compute. discriminate.
Defined.

Lemma verdict_tells_what_was_written_witness :
  let r := process_gsv_for_snr primed 61 other_four in
  analysed r.1 = true /\ previous_avg_sats r.2 = filtered_sats r.2.
Proof.
  destruct (verdict_tells_what_was_written primed 61 other_four) as (_ & H).
  assert (Ha : analysed (process_gsv_for_snr primed 61 other_four).1 = true)
    by (vm_compute; reflexivity).
  split; [exact Ha|]. apply H. exact Ha.
Defined.

Lemma insufficient_only_before_baseline_witness :
  state (process_gsv_for_snr primed 61 first_weak).1 = NORMAL
  /\ state (process_gsv_for_snr primed 61 first_weak).1 <> INSUFFICIENT_SATS.
Proof.
  split; [vm_compute; reflexivity|].
  apply (insufficient_only_before_baseline primed 61 first_weak).
  - apply snr_run_reachable. constructor.
  - intros E.
    assert (H : previous_avg_sats primed !! "01"%string = Some 30)
      by (vm_compute; reflexivity).
    rewrite E, lookup_empty in H. discriminate.
Defined.

Lemma steady_constellation_is_normal_witness :
  (process_gsv_for_snr primed 61 fifth).1 = (NORMAL, [], false).
Proof.
  destruct (steady_constellation_is_normal primed 61 fifth) as (H & _).
  - vm_compute. discriminate.
  - vm_compute. reflexivity.
  - vm_compute. lia.
  - exact H.
Defined.

Lemma detection_needs_two_anomalies_witness :
  let r := process_gsv_for_snr
             (process_gsv_for_snr primed 61 other_four).2 62
             (Parsed [strong "21"; strong "22"; strong "23"; strong "24"]) in
  state r.1 = SPOOFING_DETECTED /\ detected r.1 = true.
Proof.
  destruct (detection_needs_two_anomalies
              (process_gsv_for_snr primed 61 other_four).2 62
              (Parsed [strong "21"; strong "22"; strong "23"; strong "24"]))
    as (H & _).
  - apply reachable_process. apply snr_run_reachable. constructor.
  - assert (Hs : state (process_gsv_for_snr
                          (process_gsv_for_snr primed 61 other_four).2 62
                          (Parsed [strong "21"; strong "22"; strong "23";
                                   strong "24"])).1 = SPOOFING_DETECTED)
      by (vm_compute; reflexivity).
    split; [exact Hs|]. apply H. exact Hs.
Defined.

Lemma malformed_snr_ends_sentence_witness :
  read_slots [strong "01"; mk_sv "02" SnrGarbage; strong "03"] ∅ ∅
  = read_slots [strong "01"] ∅ ∅.
Proof.
  apply (malformed_snr_ends_sentence [strong "01"] [strong "03"]
           (mk_sv "02" SnrGarbage) ∅ ∅).
  - repeat constructor.
  - reflexivity.
Defined.

Lemma all_sats_holds_last_report_witness :
  (read_slots [strong "01"; weak "01"; strong "02"] ∅ ∅).1 !! "01"%string
  = Some 10.
Proof.
  destruct (all_sats_holds_last_report [strong "01"] [strong "02"]
              (weak "01") ∅ ∅ 10) as (H & _).
  - repeat constructor.
  - discriminate.
  - reflexivity.
  - repeat constructor.
  - exact H.
Defined.

End SNRMore.

(** ** More on the loop of [gps_reader] *)

Module SwitchMore.

Import Final_Map_Project SwitchVocabulary SwitchScenario SwitchFacts.

Section Loop.

Variable geodesic : SpeedDetector.position -> SpeedDetector.position -> Q.
Variable display : Type.
Variable map_matching : display -> SpeedDetector.nmea_line -> display.

Local Abbreviation consult := (Final_Map_Project.consult geodesic).
Local Abbreviation iteration :=
  (Final_Map_Project.iteration geodesic display map_matching).
Local Abbreviation gps_reader :=
  (Final_Map_Project.gps_reader geodesic display map_matching).

Lemma iteration_alert (g : globals) (shown : display) (e : event) :
  (iteration g shown e).2 = Alert <->
  exists line k,
    e = Read line k
    /\ confirmed (consult g line k).1 = true
    /\ autonomous_mode g = Tracking
    /\ STABILIZATION_DURATION < switch_time k - start_time g.
Proof.
  destruct e as [|line k]; simpl.
  { split; [discriminate|]. intros (line & k & H & _). discriminate. }
  pose proof (consult_confirmed geodesic g line k) as Hc.
  destruct (consult_globals geodesic g line k) as [Hs Hm].
  destruct (Final_Map_Project.consult geodesic g line k) as [r g1] eqn:Hcon.
  simpl in Hc, Hs, Hm. rewrite Hs, Hm.
  split.
  - intros H. exists line, k. split; [reflexivity|]. rewrite Hcon. simpl.
    destruct (spoof r) eqn:Hr; simpl in H; [|discriminate].
    destruct (autonomous_mode g) eqn:Ha; simpl in H; [discriminate|].
    destruct (Qgtb _ STABILIZATION_DURATION) eqn:Hq; [|discriminate].
    apply Qltb_lt in Hq. auto.
  - intros (line' & k' & [= <- <-] & Hconf & Ht & Hq).
    rewrite Hcon in Hconf. simpl in Hconf.
    rewrite Hc in Hconf. rewrite Hconf. unfold Tracking in Ht. rewrite Ht.
    simpl. unfold Qgtb. rewrite (proj2 (Qltb_lt _ _) Hq). reflexivity.
Qed.

Lemma iteration_read (g : globals) (shown : display) (line : serial_line)
    (k : tick) :
  (iteration g shown (Read line k)).2 <> Failure.
Proof.
  simpl. destruct (Final_Map_Project.consult geodesic g line k) as [r g1].
  repeat case_match; simpl; discriminate.
Qed.

Lemma gps_reader_mode (g : globals) (shown : display) (events : list event) :
  ((gps_reader g shown events).2 = Alert
   /\ autonomous_mode g = Tracking
   /\ autonomous_mode (gps_reader g shown events).1.1 = Fallback)
  \/ ((gps_reader g shown events).2 <> Alert
      /\ autonomous_mode (gps_reader g shown events).1.1 = autonomous_mode g).
Proof.
  revert g shown. induction events as [|e rest IH]; intros g shown.
  - right. simpl. split; [discriminate|reflexivity].
  - simpl. pose proof (iteration_mode geodesic display map_matching g shown e)
      as Hi.
    destruct (Final_Map_Project.iteration geodesic display map_matching
                g shown e) as [[g1 shown1] o].
    simpl in Hi. destruct o.
    + destruct Hi as [(Ha & _)|(_ & Hm)]; [discriminate|].
      rewrite <- Hm. apply IH.
    + exact Hi.
    + exact Hi.
Qed.

Lemma gps_reader_display (P : display -> Prop) (g : globals)
    (shown : display) (events : list event) :
  (forall d l, P d -> P (map_matching d l)) ->
  P shown -> P (gps_reader g shown events).1.2.
Proof.
  intros Hstep. revert g shown.
  induction events as [|e rest IH]; intros g shown H; [exact H|].
  simpl.
  assert (Hi : P (iteration g shown e).1.2).
  { destruct e as [|line k]; simpl; [exact H|].
    destruct (Final_Map_Project.consult geodesic g line k) as [r g1].
    repeat case_match; simpl; try exact H;
      destruct line; simpl; auto. }
  destruct (Final_Map_Project.iteration geodesic display map_matching
              g shown e) as [[g1 shown1] o].
  simpl in Hi. destruct o; [apply IH; exact Hi|exact Hi..].
Qed.

Lemma iteration_speed_detector (g : globals) (shown : display)
    (l : SpeedDetector.nmea_line) (k : tick) :
  speed_detector (iteration g shown (Read (GGA l) k)).1.1
  = (SpeedDetector.process geodesic (speed_detector g)
       (detector_clock k) l).2.
Proof.
  simpl. destruct (SpeedDetector.process _ _ _ _) as [v d].
  repeat case_match; reflexivity.
Qed.

(** X21.  An iteration raises the alert exactly when the line made a
    detector return its confirmed verdict, the flag is still [Tracking] and
    more than [STABILIZATION_DURATION] seconds have passed since the start;
    it then returns at once, the drawing state untouched. *)
Theorem alert_exactly_when_confirmed_after_grace (g : globals)
    (shown : display) (e : event) :
  ((iteration g shown e).2 = Alert <->
   exists line k,
     e = Read line k
     /\ confirmed (consult g line k).1 = true
     /\ autonomous_mode g = Tracking
     /\ STABILIZATION_DURATION < switch_time k - start_time g)
  /\ ((iteration g shown e).2 = Alert -> (iteration g shown e).1.2 = shown).
Proof.
  split; [apply iteration_alert|].
  destruct e as [|line k]; simpl; [discriminate|].
  destruct (Final_Map_Project.consult geodesic g line k) as [r g1].
  repeat case_match; simpl; try discriminate; reflexivity.
Qed.


(** X23.  A confirmation by the speed detector that arrives within the
    grace period is lost: whatever GGA lines follow, at whatever time, the
    loop never raises the alert on their account and the flag stays as it
    was. *)
Theorem speed_confirmation_in_grace_is_lost (g : globals) (shown : display)
    (l : SpeedDetector.nmea_line) (k : tick) (rest : list event) :
  SpeedDetector.reachable geodesic (speed_detector g) ->
  confirmed (consult g (GGA l) k).1 = true ->
  switch_time k - start_time g <= STABILIZATION_DURATION ->
  Forall (fun e => not_gsv e = true) rest ->
  (gps_reader g shown (Read (GGA l) k :: rest)).2 <> Alert
  /\ autonomous_mode (gps_reader g shown (Read (GGA l) k :: rest)).1.1
     = autonomous_mode g.
Proof.
  intros Hreach Hconf Hgrace Hrest.
  assert (Hquiet : forall rest g shown,
             Forall (fun e => not_gsv e = true) rest ->
             SpeedVocabulary.consistent (speed_detector g) ->
             SpeedDetector.spoof_confirmed (speed_detector g) = true ->
             (gps_reader g shown rest).2 <> Alert).
  { clear. intros rest. induction rest as [|e rest IH];
      intros g shown Hall Hc Hs; [discriminate|].
    inversion Hall as [|? ? He Hall']; subst. simpl.
    destruct e as [|[l|l|] k]; simpl in *; try discriminate.
    - pose proof (SpeedFacts.process_after_confirmation geodesic
                    (speed_detector g) (detector_clock k) l Hc Hs) as Ho.
      pose proof (speed_detected_iff_confirmed geodesic (speed_detector g)
                    (detector_clock k) l) as Hd.
      destruct (SpeedFacts.process_consistent geodesic (speed_detector g)
                  (detector_clock k) l Hc) as [Hc1 Hs1].
      specialize (Hs1 Hs).
      destruct (SpeedDetector.process geodesic (speed_detector g)
                  (detector_clock k) l) as [v d].
      simpl in *.
      assert (Hv : SpeedDetector.detected v = false).
      { rewrite <- Hd. unfold SpeedVocabulary.outside_phases in Ho.
        destruct (SpeedDetector.state v); try discriminate; reflexivity. }
      rewrite Hv. simpl. apply IH; assumption.
    - apply IH; assumption. }
  assert (Hcont : (iteration g shown (Read (GGA l) k)).2 = Continue).
  { pose proof (iteration_read g shown (GGA l) k) as Hf.
    pose proof (proj1 (iteration_alert g shown (Read (GGA l) k))) as Ha.
    destruct ((iteration g shown (Read (GGA l) k)).2);
      [reflexivity| |contradiction].
    destruct (Ha eq_refl) as (line' & k' & [= <- <-] & _ & _ & Hlate).
    exfalso. exact (Qlt_not_le _ _ Hlate Hgrace). }
  assert (Hm : autonomous_mode (iteration g shown (Read (GGA l) k)).1.1
               = autonomous_mode g).
  { destruct (iteration_mode geodesic display map_matching g shown
                (Read (GGA l) k)) as [(Ha & _)|(_ & Hk)]; [|exact Hk].
    rewrite Hcont in Ha. discriminate. }
  pose proof (SpeedFacts.reachable_consistent geodesic _ Hreach) as Hc.
  assert (Hstate : SpeedDetector.state
                     (SpeedDetector.process geodesic (speed_detector g)
                        (detector_clock k) l).1
                   = SpeedDetector.SPOOFING_CONFIRMED).
  { simpl in Hconf.
    destruct (SpeedDetector.process _ _ _ _) as [v d]. simpl in *.
    destruct (SpeedDetector.state v); try discriminate; reflexivity. }
  destruct (SpeedFacts.process_confirms geodesic _ _ _ Hstate) as [_ Hset].
  destruct (SpeedFacts.process_consistent geodesic (speed_detector g)
              (detector_clock k) l Hc) as [Hc1 _].
  pose proof (iteration_speed_detector g shown l k) as Hsd.
  change (gps_reader g shown (Read (GGA l) k :: rest))
    with (match iteration g shown (Read (GGA l) k) with
          | (g1, shown1, Continue) => gps_reader g1 shown1 rest
          | stopped => stopped
          end).
  destruct (iteration g shown (Read (GGA l) k)) as [[g1 shown1] o].
  simpl in Hm, Hcont, Hsd. subst o.
  assert (Hno : (gps_reader g1 shown1 rest).2 <> Alert).
  { apply Hquiet; [exact Hrest|rewrite Hsd; exact Hc1|rewrite Hsd; exact Hset]. }
  split; [exact Hno|].
  destruct (gps_reader_mode g1 shown1 rest) as [(Ha & _)|(_ & Hk)];
    [contradiction|congruence].
Qed.

(** X24.  Started with the flag at [Tracking], [gps_reader] returns through
    the alert exactly when it leaves the flag at [Fallback]; when it stops
    on a read failure, or is still reading, the flag is still
    [Tracking]. *)
Theorem reader_returns_alert_iff_switched (now : Q) (shown : display)
    (events : list event) :
  let r := gps_reader (initial now) shown events in
  (r.2 = Alert <-> autonomous_mode r.1.1 = Fallback)
  /\ (r.2 <> Alert -> autonomous_mode r.1.1 = Tracking).
Proof.
  intros r. subst r.
  destruct (gps_reader_mode (initial now) shown events)
    as [(Ha & _ & Hf)|(Ha & Hm)].
  - split; [tauto|contradiction].
  - simpl in Hm. split; [|intros _; exact Hm].
    split; [contradiction|]. unfold Fallback, Tracking in *. congruence.
Qed.

End Loop.

Lemma alert_exactly_when_confirmed_after_grace_witness :
  (iteration SpeedScenario.flat_metres unit no_display about_to_confirm tt
     (confirming_fix 40)).2 = Alert.
Proof.
  destruct (alert_exactly_when_confirmed_after_grace SpeedScenario.flat_metres
              unit no_display about_to_confirm tt (confirming_fix 40))
    as ([_ H] & _).
  apply H. eexists _, _. split; [reflexivity|].
  split; [vm_compute; reflexivity|]. split; reflexivity.
Defined.

Lemma speed_confirmation_in_grace_is_lost_witness :
  let r := gps_reader SpeedScenario.flat_metres unit no_display
             about_to_confirm tt
             [confirming_fix 20; confirming_fix 40; confirming_fix 41] in
  r.2 = Continue /\ autonomous_mode r.1.1 = Tracking.
Proof.
  destruct (speed_confirmation_in_grace_is_lost SpeedScenario.flat_metres
              unit no_display about_to_confirm tt (SpeedScenario.held 23)
              (mk_tick (SpeedScenario.today 23) 20)
              [confirming_fix 40; confirming_fix 41]) as [_ H].
  - apply SpeedFacts.run_reachable. constructor.
  - vm_compute. reflexivity.
  - vm_compute. discriminate.
  - repeat constructor.
  - split; [vm_compute; reflexivity | exact H].
Defined.

Lemma reader_returns_alert_iff_switched_witness :
  autonomous_mode
    (gps_reader SpeedScenario.flat_metres unit no_display (initial 0) tt
       [ReadError]).1.1 = Tracking.
Proof.
  destruct (reader_returns_alert_iff_switched SpeedScenario.flat_metres unit
              no_display 0 tt [ReadError]) as [_ H].
  apply H. discriminate.
Defined.

End SwitchMore.

(** ** The drawing block and the autonomous route *)

Module DisplayFacts.

Import MapMatching.

Lemma push_length (buffer : list SpeedDetector.position)
    (p : SpeedDetector.position) :
  length (push buffer p) = Nat.min (S (length buffer)) SMOOTHING_WINDOW.
Proof.
  unfold push. rewrite length_drop, length_app. simpl.
  unfold SMOOTHING_WINDOW. lia.
Qed.

Section Block.

Variable network : Type.
Variable graph_from_point : SpeedDetector.position -> option network.
Variable snap : network -> SpeedDetector.position
                -> option SpeedDetector.position.
Variable haversine : SpeedDetector.position -> SpeedDetector.position -> Q.

Local Abbreviation block :=
  (MapMatching.block network graph_from_point snap haversine).
Local Abbreviation map_matching :=
  (MapMatching.map_matching network graph_from_point snap haversine).

Ltac block_cases :=
  unfold MapMatching.map_matching, MapMatching.block in *;
  repeat (case_match; simplify_eq/=); simplify_eq/=.

Lemma block_buffer (l : locals network) (line : SpeedDetector.nmea_line) :
  (length (buffer network l) <= SMOOTHING_WINDOW)%nat ->
  (length (buffer network (map_matching l line)) <= SMOOTHING_WINDOW)%nat.
Proof.
  intros H. unfold MapMatching.map_matching, MapMatching.block.
  repeat case_match; cbn [fst buffer]; try exact H;
    rewrite push_length; lia.
Qed.

Lemma block_network (l : locals network) (line : SpeedDetector.nmea_line)
    (net : network) :
  road_network network l = Some net ->
  road_network network (map_matching l line) = Some net.
Proof. intros H. block_cases; congruence. Qed.


(** X26.  Through any run of [gps_reader] that starts with fresh locals the
    smoothing buffer never holds more than [SMOOTHING_WINDOW] points. *)
Theorem smoothing_buffer_is_bounded
    (geodesic : SpeedDetector.position -> SpeedDetector.position -> Q)
    (g : Final_Map_Project.globals)
    (events : list Final_Map_Project.event) :
  (length
     (buffer network
        (Final_Map_Project.gps_reader geodesic (locals network) map_matching
           g (start network) events).1.2)
   <= SMOOTHING_WINDOW)%nat.
Proof.
  apply (SwitchMore.gps_reader_display geodesic (locals network) map_matching
           (fun d => (length (buffer network d) <= SMOOTHING_WINDOW)%nat)).
  - intros d line. apply block_buffer.
  - simpl. unfold SMOOTHING_WINDOW. lia.
Qed.

(** X27.  The road graph is loaded once: after it is set, no run of
    [gps_reader] replaces it. *)
Theorem road_network_is_loaded_once
    (geodesic : SpeedDetector.position -> SpeedDetector.position -> Q)
    (g : Final_Map_Project.globals) (shown : locals network)
    (events : list Final_Map_Project.event) (net : network) :
  road_network network shown = Some net ->
  road_network network
    (Final_Map_Project.gps_reader geodesic (locals network) map_matching
       g shown events).1.2 = Some net.
Proof.
  intros H.
  apply (SwitchMore.gps_reader_display geodesic (locals network) map_matching
           (fun d => road_network network d = Some net)).
  - intros d line. apply block_network.
  - exact H.
Qed.

End Block.

Lemma road_network_is_loaded_once_witness :
  road_network unit
    (Final_Map_Project.gps_reader SpeedScenario.flat_metres (locals unit)
       (MapMatching.map_matching unit DisplayScenario.load_plain
          DisplayScenario.snap_plain SpeedScenario.flat_metres)
       (Final_Map_Project.initial 0) DisplayScenario.drawing
       [Final_Map_Project.Read
          (Final_Map_Project.GGA (SpeedScenario.fix_at 48 2 1))
          (Final_Map_Project.mk_tick (SpeedScenario.today 1) 1)]).1.2
  = Some tt
  /\ DisplayScenario.drawing
     <> (Final_Map_Project.gps_reader SpeedScenario.flat_metres (locals unit)
           (MapMatching.map_matching unit DisplayScenario.load_plain
              DisplayScenario.snap_plain SpeedScenario.flat_metres)
           (Final_Map_Project.initial 0) DisplayScenario.drawing
           [Final_Map_Project.Read
              (Final_Map_Project.GGA (SpeedScenario.fix_at 48 2 1))
              (Final_Map_Project.mk_tick (SpeedScenario.today 1) 1)]).1.2.
Proof.
  split.
  - apply (road_network_is_loaded_once unit DisplayScenario.load_plain
             DisplayScenario.snap_plain SpeedScenario.flat_metres
             SpeedScenario.flat_metres).
    reflexivity.
  - vm_compute. discriminate.
Defined.

End DisplayFacts.

Module PathFacts.

Import AutonomousPath.

Section Unique.

Context {A : Type} `{EqDecision A}.

Lemma unique_from_elem_of (seen coords : list A) (x : A) :
  x ∈ unique_from seen coords <-> x ∈ coords /\ x ∉ seen.
Proof.
  revert seen. induction coords as [|c rest IH]; intros seen; simpl.
  - split; [intros Hx; inversion Hx|intros [Hx _]; inversion Hx].
  - destruct (decide (c ∈ seen)) as [Hc|Hc].
    + rewrite IH, elem_of_cons. split; [tauto|].
      intros [[->|Hx] Hn]; [contradiction|tauto].
    + rewrite !elem_of_cons, IH, elem_of_cons.
      destruct (decide (x = c)) as [->|Hne]; tauto.
Qed.

Lemma unique_from_NoDup (seen coords : list A) :
  NoDup (unique_from seen coords).
Proof.
  revert seen. induction coords as [|c rest IH]; intros seen; simpl.
  - constructor.
  - destruct (decide (c ∈ seen)); [apply IH|].
    constructor; [|apply IH].
    rewrite unique_from_elem_of, elem_of_cons. tauto.
Qed.




(** X29.  [gps_thread] starts the autonomous movement only when the flag is
    set and [gps_reader] returned a displayed point; it then shows the
    banner first and sends each point of the route once, in blue.  With no
    displayed point, or when the route cannot be built, no position is
    sent. *)
Theorem autonomous_movement_needs_flag_and_point
    (route_from : A -> option (list A)) (autonomous_mode : bool)
    (last_coord : option A) :
  let out := gps_thread route_from autonomous_mode last_coord in
  (out <> [] <-> autonomous_mode = true /\ is_Some last_coord)
  /\ NoDup out
  /\ (forall p, autonomous_mode = true -> last_coord = Some p ->
        out = EmitAutonomous
              :: map (fun q => EmitPosition q blue)
                     (generate_autonomous_path (route_from p))
        /\ (route_from p = None -> out = [EmitAutonomous]))
  /\ (forall q c, EmitPosition q c ∈ out -> c = blue).
Proof.
  intros out. subst out. unfold gps_thread, simulate_autonomous_movement.
  destruct last_coord as [p|], autonomous_mode; simpl.
  - split; [split; [eauto|discriminate]|].
    assert (Hnd : NoDup (generate_autonomous_path (route_from p))).
    { unfold generate_autonomous_path.
      destruct (route_from p); [apply unique_from_NoDup|constructor]. }
    split.
    { constructor.
      - intros Hin. apply list_elem_of_fmap in Hin.
        destruct Hin as (q & Hq & _). discriminate.
      - apply NoDup_fmap_2; [|exact Hnd]. intros a b [= ->]. reflexivity. }
    split.
    { intros q _ [= <-]. split; [reflexivity|].
      intros Hr. rewrite Hr. reflexivity. }
    intros q c Hin. apply elem_of_cons in Hin.
    destruct Hin as [Hin|Hin]; [discriminate|].
    apply list_elem_of_fmap in Hin. destruct Hin as (q' & [= _ ->] & _).
    reflexivity.
  - split; [split; [contradiction|intros [? _]; discriminate]|].
    split; [constructor|]. split; [discriminate|].
    intros q c Hin. inversion Hin.
  - split; [split; [contradiction|intros [_ [? ?]]; discriminate]|].
    split; [constructor|]. split; [discriminate|].
    intros q c Hin. inversion Hin.
  - split; [split; [contradiction|intros [? _]; discriminate]|].
    split; [constructor|]. split; [discriminate|].
    intros q c Hin. inversion Hin.
Qed.

End Unique.


Lemma autonomous_movement_needs_flag_and_point_witness :
  gps_thread DisplayScenario.loop_route true (Some 7%nat)
  = [EmitAutonomous; EmitPosition 7%nat blue; EmitPosition 8%nat blue;
     EmitPosition 9%nat blue]
  /\ gps_thread DisplayScenario.loop_route true None = [].
Proof.
  destruct (autonomous_movement_needs_flag_and_point DisplayScenario.loop_route
              true (Some 7%nat)) as (_ & _ & H & _).
  destruct (H 7%nat eq_refl eq_refl) as [Hout _].
  split; [rewrite Hout; reflexivity | reflexivity].
Defined.

End PathFacts.
